(** * Memory (AI-powered second brain): retrieval and ranking engine

    A shallow embedding of the scoring code of the application:
    - [App.performSearch], [App.handleSave] (from [findRelatedMemories] to the
      last write) and [App.handleResurface] from the main component [App];
    - [Gemini.analyzeContent] (from the reply of the model on),
      [Gemini.findRelatedMemories] and [Gemini.generateInsights] from
      [services/gemini];
    - [Db.saveMemory] from [services/db];
    - the records of [types].

    Conventions of the embedding.
    - JavaScript numbers that carry scores are exact rationals [Q]; every
      constant of the code is a short decimal and the properties below are
      about thresholds and orderings, not about rounding.  Timestamps and
      counters are integers [Z] (milliseconds since the epoch).
    - Strings are [string]s of ASCII characters: [toLowerCase] maps A-Z to a-z,
      [trim] strips tab, line feed, vertical tab, form feed, carriage return
      and space, and [length] counts characters.
    - An optional field [f?: T] is an [option T]; [x || d] on a number treats a
      missing value and [0] alike.
    - [Date.now()] is an explicit argument. *)

From Stdlib Require Import List String Ascii Bool ZArith QArith Qminmax Lia Lqa.
From Stdlib Require Import Permutation Sorted DecimalString OrderedTypeEx.
Import ListNotations.

Set Implicit Arguments.
Open Scope string_scope.
Open Scope list_scope.
Open Scope Z_scope.

(** ** JavaScript built-ins used by the code *)

Module JS.

Definition isUpper (c : ascii) : bool :=
  (65 <=? nat_of_ascii c)%nat && (nat_of_ascii c <=? 90)%nat.

Definition lowerChar (c : ascii) : ascii :=
  if isUpper c then ascii_of_nat (nat_of_ascii c + 32) else c.

(** [s.toLowerCase()] *)
Fixpoint toLowerCase (s : string) : string :=
  match s with
  | EmptyString => EmptyString
  | String c s' => String (lowerChar c) (toLowerCase s')
  end.

(** [s.includes(sub)] *)
Fixpoint includes (s sub : string) : bool :=
  String.prefix sub s
  || match s with
     | EmptyString => false
     | String _ s' => includes s' sub
     end.

(** [parts.join(sep)] *)
Definition join (sep : string) (parts : list string) : string :=
  String.concat sep parts.

Definition isWhiteSpace (c : ascii) : bool :=
  let n := nat_of_ascii c in
  ((9 <=? n)%nat && (n <=? 13)%nat) || (n =? 32)%nat.

Fixpoint trimStart (s : string) : string :=
  match s with
  | EmptyString => EmptyString
  | String c s' => if isWhiteSpace c then trimStart s' else s
  end.

Fixpoint trimEnd (s : string) : string :=
  match s with
  | EmptyString => EmptyString
  | String c s' =>
      match trimEnd s' with
      | EmptyString => if isWhiteSpace c then EmptyString else String c EmptyString
      | t => String c t
      end
  end.

(** [s.trim()] *)
Definition trim (s : string) : string := trimEnd (trimStart s).

(** Truthiness of a string: [!s] is [true] exactly on the empty string. *)
Definition falsyString (s : string) : bool :=
  match s with EmptyString => true | _ => false end.

(** [x || d] for an optional integer [x]. *)
Definition orZ (x : option Z) (d : Z) : Z :=
  match x with
  | Some v => if v =? 0 then d else v
  | None => d
  end.

(** [x || d] for an optional score [x]. *)
Definition orQ (x : option Q) (d : Q) : Q :=
  match x with
  | Some v => if Qeq_bool v 0 then d else v
  | None => d
  end.

(** [xs || []] for an optional array. *)
Definition orNil {A} (x : option (list A)) : list A :=
  match x with Some l => l | None => [] end.

Definition Qltb (a b : Q) : bool := negb (Qle_bool b a).

(** [xs.sort(cmp)]: the sort is stable, and [cmp a b > 0] asks for [a] to be
    placed after [b].  [insertBy] puts an element that stood before the
    whole of [l] at its place in the sorted [l]. *)
Fixpoint insertBy {A} (cmp : A -> A -> Q) (x : A) (l : list A) : list A :=
  match l with
  | [] => [x]
  | y :: l' => if Qltb 0 (cmp x y) then y :: insertBy cmp x l' else x :: l
  end.

Definition sort {A} (cmp : A -> A -> Q) (l : list A) : list A :=
  fold_right (insertBy cmp) [] l.

(** [xs.slice(0, n)] *)
Definition slice0 {A} (n : nat) (l : list A) : list A := firstn n l.

(** [x || d] for an optional string [x]: a missing value and the empty
    string alike give [d]. *)
Definition orString (x : option string) (d : string) : string :=
  match x with
  | Some v => if falsyString v then d else v
  | None => d
  end.

(** [Array.from(new Set(xs))]: the set takes each value the first time it
    comes and remembers it; [seen] is what it holds so far. *)
Fixpoint uniqFrom (seen xs : list string) : list string :=
  match xs with
  | [] => []
  | x :: rest =>
      if existsb (String.eqb x) seen then uniqFrom seen rest
      else x :: uniqFrom (x :: seen) rest
  end.

Definition uniq (xs : list string) : list string := uniqFrom [] xs.

(** [s.startsWith(p)] *)
Definition startsWith (s p : string) : bool := String.prefix p s.

(** [`${n}`] for a non-negative integer. *)
Definition showNat (n : nat) : string :=
  NilZero.string_of_uint (Nat.to_uint n).

End JS.

(** ** Data model (types.ts) *)

Inductive MemoryType := link | note | image | pdf.

Record AIMetadata := {
  summary : string;
  topics : list string;
  mood : list string;
  colors : list string;
  collection : option string;
  relatedMemoryIds : option (list string);
  importance : option Q
}.

Record MemoryItem := {
  id : string;
  type : MemoryType;
  content : string;
  imageData : option string;
  aiMetadata : AIMetadata;
  embedding : list Q;
  createdAt : Z;
  lastResurfaced : option Z;
  resurfaceCount : option Z
}.

Record SearchResult := {
  item : MemoryItem;
  score : Q
}.

Inductive InsightType := pattern | trend | connection | reminder.

Record Insight := {
  insightType : InsightType;
  title : string;
  description : string;
  memoryIds : list string;
  relevance : Q
}.

Module Coll.

Record Collection := {
  id : string;
  name : string;
  description : option string;
  memoryIds : list string;
  color : option string;
  createdAt : Z
}.

End Coll.

(** What [setSearchResults] receives: plain memories (keyword filter,
    resurfacing) or scored ones (hybrid search). *)
Inductive Results :=
| Plain (ms : list MemoryItem)
| Scored (rs : list SearchResult).

Definition resultItems (r : Results) : list MemoryItem :=
  match r with
  | Plain ms => ms
  | Scored rs => map item rs
  end.

Definition ONE_DAY : Z := 24 * 60 * 60 * 1000.
Definition ONE_WEEK : Z := 7 * 24 * 60 * 60 * 1000.
Definition ONE_MONTH : Z := 30 * 24 * 60 * 60 * 1000.

(** ** The content store (services/db) *)

Module Db.

(** The object store [memories], keyed by [id]. *)
Definition Store := list MemoryItem.

Definition get (k : string) (s : Store) : option MemoryItem :=
  find (fun x => String.eqb (id x) k) s.

(** [store.put(memory)]: replaces the record stored under the same key, or
    adds one. *)
Fixpoint put (memory : MemoryItem) (s : Store) : Store :=
  match s with
  | [] => [memory]
  | x :: s' =>
      if String.eqb (id x) (id memory) then memory :: s' else x :: put memory s'
  end.

(** [saveMemory]: the promise resolves once the record is put, and rejects
    ([None]) when the request fails; [accepts] tells which requests
    succeed. *)
Definition saveMemory (accepts : MemoryItem -> bool) (memory : MemoryItem)
           (s : Store) : option Store :=
  if accepts memory then Some (put memory s) else None.

(** [store.delete(id)] *)
Definition delete (k : string) (s : Store) : Store :=
  filter (fun x => negb (String.eqb (id x) k)) s.

(** [deleteMemory]: rejects ([None]) when the request fails; [allows] tells
    which requests succeed. *)
Definition deleteMemory (allows : string -> bool) (k : string) (s : Store)
  : option Store :=
  if allows k then Some (delete k s) else None.

(** The order of keys in an object store or an index: strings compare
    character by character. *)
Definition keyOrder (a b : string) : Q :=
  match String.compare a b with
  | Lt => (-1)%Q
  | Eq => 0%Q
  | Gt => 1%Q
  end.

(** [store.getAll()]: the records by increasing key. *)
Definition getAll (s : Store) : list MemoryItem :=
  JS.sort (fun a b => keyOrder (id a) (id b)) s.

(** [store.index('createdAt').getAll()]: the records by increasing
    [createdAt], those of one [createdAt] by increasing key. *)
Definition getAllByCreatedAt (s : Store) : list MemoryItem :=
  JS.sort (fun a b => inject_Z (createdAt a) - inject_Z (createdAt b))%Q
    (getAll s).

Definition newestFirst (ms : list MemoryItem) : list MemoryItem :=
  JS.sort (fun a b => inject_Z (createdAt b) - inject_Z (createdAt a))%Q ms.

Definition getAllMemories (s : Store) : list MemoryItem :=
  newestFirst (getAllByCreatedAt s).

Definition getMemoriesByCollection (collectionName : string) (s : Store)
  : list MemoryItem :=
  newestFirst
    (filter
       (fun m =>
          String.eqb (JS.orString (collection (aiMetadata m)) "General")
            collectionName)
       (getAll s)).

(** The object store [collections], keyed by [id]. *)
Definition Collections := list Coll.Collection.

Fixpoint putCollection (c : Coll.Collection) (s : Collections) : Collections :=
  match s with
  | [] => [c]
  | x :: s' =>
      if String.eqb (Coll.id x) (Coll.id c) then c :: s'
      else x :: putCollection c s'
  end.

Definition saveCollection (accepts : Coll.Collection -> bool)
           (c : Coll.Collection) (s : Collections) : option Collections :=
  if accepts c then Some (putCollection c s) else None.

Definition getAllCollections (s : Collections) : list Coll.Collection :=
  JS.sort (fun a b => inject_Z (Coll.createdAt b) - inject_Z (Coll.createdAt a))%Q
    (JS.sort (fun a b => keyOrder (Coll.id a) (Coll.id b)) s).

End Db.

(** ** The AI service (services/gemini) *)

Module Gemini.

(** *** analyzeContent: the value of [JSON.parse] and the defaults *)

#[warnings="-register-all"]
Inductive JSON :=
| JNull
| JBool (b : bool)
| JNumber (q : Q)
| JString (s : string)
| JArray (elems : list JSON)
| JObject (fields : list (string * JSON)).

(** What the call to the model produced: the call threw, the response had
    no text, the text was not JSON, or it parsed to a value. *)
Inductive Reply :=
| CallFailed
| NoText
| InvalidJSON
| Parsed (v : JSON).

Definition truthy (v : JSON) : bool :=
  match v with
  | JNull => false
  | JBool b => b
  | JNumber q => negb (Qeq_bool q 0)
  | JString s => negb (JS.falsyString s)
  | JArray _ => true
  | JObject _ => true
  end.

(** Own property of a parsed object; a key written twice keeps its last
    value.  [None] is [undefined]. *)
Fixpoint lookup (k : string) (fields : list (string * JSON)) : option JSON :=
  match fields with
  | [] => None
  | (k', v) :: rest =>
      match lookup k rest with
      | Some v' => Some v'
      | None => if String.eqb k' k then Some v else None
      end
  end.

(** [parsed.k]: throws on [null], is [undefined] on the other values that
    are not objects. *)
Definition prop (parsed : JSON) (k : string) : option (option JSON) :=
  match parsed with
  | JNull => None
  | JObject fields => Some (lookup k fields)
  | _ => Some None
  end.

(** [v || d] *)
Definition orElse (v : option JSON) (d : JSON) : JSON :=
  match v with
  | Some x => if truthy x then x else d
  | None => d
  end.

(** [Array.isArray(v) ? v : []] *)
Definition arrayOrEmpty (v : option JSON) : JSON :=
  match v with
  | Some (JArray l) => JArray l
  | _ => JArray []
  end.

(** [typeof v === 'number' ? Math.max(0, Math.min(1, v)) : 0.5] *)
Definition clampImportance (v : option JSON) : JSON :=
  match v with
  | Some (JNumber q) => JNumber (Qmax 0 (Qmin 1 q))
  | _ => JNumber 0.5
  end.

(** The object [analyzeContent] returns, field by field as JavaScript
    values (the declared type [AIMetadata] is not checked at run time). *)
Record Analysis := {
  a_summary : JSON;
  a_topics : JSON;
  a_mood : JSON;
  a_colors : JSON;
  a_collection : JSON;
  a_importance : JSON
}.

Definition analysisFailed : Analysis := {|
  a_summary := JString "Could not analyze content.";
  a_topics := JArray [JString "Uncategorized"];
  a_mood := JArray [];
  a_colors := JArray [JString "#CCCCCC"];
  a_collection := JString "General";
  a_importance := JNumber 0.5
|}.

Definition analyzeContent (reply : Reply) : Analysis :=
  match reply with
  | Parsed parsed =>
      match prop parsed "summary", prop parsed "topics", prop parsed "mood",
            prop parsed "colors", prop parsed "collection",
            prop parsed "importance" with
      | Some s, Some t, Some m, Some c, Some col, Some imp =>
          {| a_summary := orElse s (JString "No summary available.");
             a_topics := arrayOrEmpty t;
             a_mood := arrayOrEmpty m;
             a_colors := arrayOrEmpty c;
             a_collection := orElse col (JString "General");
             a_importance := clampImportance imp |}
      | _, _, _, _, _, _ => analysisFailed
      end
  | _ => analysisFailed
  end.

Definition isArray (v : JSON) : bool :=
  match v with JArray _ => true | _ => false end.

Definition nonEmptyString (v : JSON) : bool :=
  match v with JString s => negb (JS.falsyString s) | _ => false end.

Definition isString (v : JSON) : bool :=
  match v with JString _ => true | _ => false end.

(** *** findRelatedMemories *)

Section Related.

(** [cosineSimilarity] of services/vector, which is not among the
    sources: the linker is stated for any such function. *)
Variable cosineSimilarity : list Q -> list Q -> Q.

Definition topicOverlap (memory other : MemoryItem) : nat :=
  List.length
    (filter
       (fun t =>
          existsb (fun ot => String.eqb (JS.toLowerCase ot) (JS.toLowerCase t))
            (topics (aiMetadata other)))
       (topics (aiMetadata memory))).

Definition finalScore (memory other : MemoryItem) : Q :=
  let similarity := cosineSimilarity (embedding memory) (embedding other) in
  let topicBoost := (if (0 <? topicOverlap memory other)%nat then 0.1 else 0)%Q in
  (similarity + topicBoost)%Q.

(** The [for ... of] loop; the result is the array [related]. *)
Fixpoint relatedLoop (memory : MemoryItem) (allMemories : list MemoryItem)
         (threshold : Q) : list string :=
  match allMemories with
  | [] => []
  | other :: rest =>
      if String.eqb (id other) (id memory) then relatedLoop memory rest threshold
      else if Qle_bool threshold (finalScore memory other)
           then id other :: relatedLoop memory rest threshold
           else relatedLoop memory rest threshold
  end.

Definition findRelatedMemories (memory : MemoryItem)
           (allMemories : list MemoryItem) (threshold : Q) : list string :=
  JS.slice0 5 (relatedLoop memory allMemories threshold).

End Related.

Definition defaultThreshold : Q := 0.65.

(** *** generateInsights *)

(** [topicFrequency]: the keys in the order they were first written.
    Topics that name a member of [Object.prototype] (such as
    ["constructor"]) are not covered: for them the object answers with the
    inherited member instead of a count. *)
Definition Freq := list (string * nat).

(** [topicFrequency[topic] = (topicFrequency[topic] || 0) + 1] *)
Fixpoint bump (topic : string) (f : Freq) : Freq :=
  match f with
  | [] => [(topic, 1%nat)]
  | (k, n) :: f' =>
      if String.eqb k topic then (k, S n) :: f' else (k, n) :: bump topic f'
  end.

Definition countTopics (memories : list MemoryItem) : Freq :=
  fold_left
    (fun f m => fold_left (fun f' topic => bump topic f') (topics (aiMetadata m)) f)
    memories [].

Definition isDigit (c : ascii) : bool :=
  (48 <=? nat_of_ascii c)%nat && (nat_of_ascii c <=? 57)%nat.

Fixpoint digitsValue (s : string) (acc : N) : option N :=
  match s with
  | EmptyString => Some acc
  | String c s' =>
      if isDigit c
      then digitsValue s' (10 * acc + N.of_nat (nat_of_ascii c - 48))%N
      else None
  end.

(** A key that is an array index (a canonical decimal below [2^32 - 1]):
    [Object.entries] lists these first, in increasing order. *)
Definition arrayIndex (k : string) : option N :=
  match k with
  | EmptyString => None
  | String "0" (String _ _) => None
  | _ =>
      match digitsValue k 0 with
      | Some n => if (n <? 4294967295)%N then Some n else None
      | None => None
      end
  end.

Definition isIndexKey (e : string * nat) : bool :=
  match arrayIndex (fst e) with Some _ => true | None => false end.

Definition indexOf (e : string * nat) : Q :=
  match arrayIndex (fst e) with
  | Some n => inject_Z (Z.of_N n)
  | None => 0%Q
  end.

(** [Object.entries(topicFrequency)] *)
Definition entries (f : Freq) : list (string * nat) :=
  JS.sort (fun a b => indexOf a - indexOf b)%Q (filter isIndexKey f)
  ++ filter (fun e => negb (isIndexKey e)) f.

Definition countQ (n : nat) : Q := inject_Z (Z.of_nat n).

Definition topTopics (memories : list MemoryItem) : list (string * nat) :=
  filter (fun e => (2 <=? snd e)%nat)
    (JS.slice0 3
       (JS.sort (fun a b => countQ (snd b) - countQ (snd a))%Q
          (entries (countTopics memories)))).

(** [m.aiMetadata.topics.includes(topic)] *)
Definition hasTopic (topic : string) (m : MemoryItem) : bool :=
  existsb (fun t => String.eqb t topic) (topics (aiMetadata m)).

Definition patternInsight (memories : list MemoryItem) (e : string * nat)
  : list Insight :=
  let (topic, count) := e in
  let relatedMemories := map id (filter (hasTopic topic) memories) in
  if (2 <=? List.length relatedMemories)%nat
  then [ {| insightType := pattern;
            title := "Recurring Topic: " ++ topic;
            description := "You've saved " ++ JS.showNat count
                           ++ " memories related to " ++ topic;
            memoryIds := relatedMemories;
            relevance := Qmin 1 (countQ count / countQ (List.length memories)) |} ]
  else [].

Definition forgotten (now : Z) (m : MemoryItem) : bool :=
  let lastSeen := JS.orZ (lastResurfaced m) (createdAt m) in
  (ONE_MONTH <? now - lastSeen)
  && JS.Qltb 0.6 (JS.orQ (importance (aiMetadata m)) 0.5).

Definition reminderInsight (now : Z) (memories : list MemoryItem)
  : list Insight :=
  let forgottenMemories := map id (JS.slice0 3 (filter (forgotten now) memories)) in
  if (0 <? List.length forgottenMemories)%nat
  then [ {| insightType := reminder;
            title := "Important Memories to Revisit";
            description := "You have " ++ JS.showNat (List.length forgottenMemories)
                           ++ " important memories you haven't seen in a while";
            memoryIds := forgottenMemories;
            relevance := 0.8 |} ]
  else [].

Definition generateInsights (now : Z) (memories : list MemoryItem)
  : list Insight :=
  if (List.length memories <? 3)%nat then []
  else flat_map (patternInsight memories) (topTopics memories)
       ++ reminderInsight now memories.

End Gemini.

(** ** The main component (App) *)

Module App.

(** What one run of a handler did: the value given to [setSearchResults]
    ([None] is [null]) and the texts sent to [getEmbedding]. *)
Record SearchRun := {
  delivered : option Results;
  embeddingCalls : list string
}.

(** The filter of the keyword path. *)
Definition matchesKeyword (lowerQ : string) (m : MemoryItem) : bool :=
  JS.includes (JS.toLowerCase (content m)) lowerQ
  || JS.includes (JS.toLowerCase (summary (aiMetadata m))) lowerQ
  || existsb (fun t => JS.includes (JS.toLowerCase t) lowerQ)
       (topics (aiMetadata m)).

Definition allMetadataText (memory : MemoryItem) : string :=
  JS.toLowerCase
    (JS.join " "
       ([content memory; summary (aiMetadata memory)]
          ++ topics (aiMetadata memory) ++ mood (aiMetadata memory))).

Definition exactTags (memory : MemoryItem) : list string :=
  map JS.toLowerCase (topics (aiMetadata memory) ++ mood (aiMetadata memory)).

(** [allText] of the fallback filter: content, summary and topics. *)
Definition allText (m : MemoryItem) : string :=
  JS.toLowerCase
    (JS.join " " ([content m; summary (aiMetadata m)] ++ topics (aiMetadata m))).

Definition recencyScore (NOW : Z) (memory : MemoryItem) : Q :=
  let age := NOW - createdAt memory in
  Qmax 0 (1 - inject_Z age / inject_Z (60 * ONE_DAY)).

Definition keywordBoost (lowerQ : string) (memory : MemoryItem) : Q :=
  if JS.includes (allMetadataText memory) lowerQ then 0.25%Q else 0%Q.

Definition tagBoost (lowerQ : string) (memory : MemoryItem) : Q :=
  if existsb (fun t => String.eqb t lowerQ) (exactTags memory)
  then 0.35%Q else 0%Q.

(** The three boosts on their own. *)
Definition boosts (NOW : Z) (lowerQ : string) (memory : MemoryItem) : Q :=
  (recencyScore NOW memory * 0.15 + keywordBoost lowerQ memory
   + tagBoost lowerQ memory)%Q.

Section Search.

(** [cosineSimilarity] of services/vector, which is not among the
    sources. *)
Variable cosineSimilarity : list Q -> list Q -> Q.

(** [getEmbedding]: the vector the provider answers for a text; the
    function catches every error of the call and answers [[]] then. *)
Variable getEmbedding : string -> list Q.

(** The callback of [memories.map] in the hybrid path. *)
Definition scoreMemory (NOW : Z) (lowerQ : string) (queryEmbedding : list Q)
           (memory : MemoryItem) : SearchResult :=
  let score := cosineSimilarity queryEmbedding (embedding memory) in
  let score := (score + recencyScore NOW memory * 0.15)%Q in
  let score :=
    if JS.includes (allMetadataText memory) lowerQ
    then (score + 0.25)%Q else score in
  let score :=
    if existsb (fun t => String.eqb t lowerQ) (exactTags memory)
    then (score + 0.35)%Q else score in
  {| item := memory; score := score |}.

Definition fallbackResults (lowerQ : string) (memories : list MemoryItem)
  : list SearchResult :=
  map (fun m => {| item := m; score := 0.5 |})
    (filter (fun m => JS.includes (allText m) lowerQ) memories).

(** The body of the debounced search.  The flag [isResurfacing] it
    clears plays no part in the result and is left out; the [catch] around
    the hybrid path is never entered, [getEmbedding] and
    [cosineSimilarity] being total here. *)
Definition performSearch (NOW : Z) (searchQuery : string)
           (memories : list MemoryItem) : SearchRun :=
  if JS.falsyString (JS.trim searchQuery)
  then {| delivered := None; embeddingCalls := [] |}
  else
    let lowerQ := JS.toLowerCase searchQuery in
    if (String.length searchQuery <? 3)%nat
    then
      let filtered := filter (matchesKeyword lowerQ) memories in
      {| delivered := Some (Plain filtered); embeddingCalls := [] |}
    else
      let queryEmbedding := getEmbedding searchQuery in
      let scoredResults :=
        if (0 <? List.length queryEmbedding)%nat
        then map (scoreMemory NOW lowerQ queryEmbedding) memories
        else [] in
      let finalResults :=
        filter (fun r => JS.Qltb 0.40 (score r))
          (JS.sort (fun a b => score b - score a)%Q scoredResults) in
      let finalResults :=
        if (List.length finalResults =? 0)%nat
        then fallbackResults lowerQ memories
        else finalResults in
      {| delivered := Some (Scored finalResults);
         embeddingCalls := [searchQuery] |}.

End Search.

(** *** handleSave: linking the new memory *)

Definition withRelated (m : MemoryItem) (ids : list string) : MemoryItem :=
  {| id := id m; type := type m; content := content m;
     imageData := imageData m;
     aiMetadata :=
       {| summary := summary (aiMetadata m);
          topics := topics (aiMetadata m);
          mood := mood (aiMetadata m);
          colors := colors (aiMetadata m);
          collection := collection (aiMetadata m);
          relatedMemoryIds := Some ids;
          importance := importance (aiMetadata m) |};
     embedding := embedding m; createdAt := createdAt m;
     lastResurfaced := lastResurfaced m;
     resurfaceCount := resurfaceCount m |}.

(** [{...related, aiMetadata: {...related.aiMetadata,
      relatedMemoryIds: [...(related.aiMetadata.relatedMemoryIds || []), id]}}] *)
Definition updatedRelated (newId : string) (related : MemoryItem) : MemoryItem :=
  withRelated related
    (JS.orNil (relatedMemoryIds (aiMetadata related)) ++ [newId]).

(** The loop over [relatedIds]: one awaited [saveMemory] for each id found
    in [allMemories].  A rejected write throws out of the loop, to the
    [catch] of [handleSave]: the result is the store as the loop left it and
    whether the loop ran to its end. *)
Fixpoint linkRelated (accepts : MemoryItem -> bool) (newId : string)
         (relatedIds : list string) (allMemories : list MemoryItem)
         (store : Db.Store) : Db.Store * bool :=
  match relatedIds with
  | [] => (store, true)
  | relatedId :: rest =>
      match find (fun m => String.eqb (id m) relatedId) allMemories with
      | Some related =>
          match Db.saveMemory accepts (updatedRelated newId related) store with
          | Some store' => linkRelated accepts newId rest allMemories store'
          | None => (store, false)
          end
      | None => linkRelated accepts newId rest allMemories store
      end
  end.

(** From [findRelatedMemories] to the last [saveMemory] of [handleSave]. *)
Definition linkAndSave (cosineSimilarity : list Q -> list Q -> Q)
           (accepts : MemoryItem -> bool)
           (newMemory : MemoryItem) (allMemories : list MemoryItem)
           (store : Db.Store) : Db.Store * bool :=
  let relatedIds :=
    Gemini.findRelatedMemories cosineSimilarity newMemory allMemories
      Gemini.defaultThreshold in
  let newMemory' := withRelated newMemory relatedIds in
  match linkRelated accepts (id newMemory) relatedIds allMemories store with
  | (store', true) =>
      match Db.saveMemory accepts newMemory' store' with
      | Some store'' => (store'', true)
      | None => (store', false)
      end
  | (store', false) => (store', false)
  end.

(** *** handleResurface *)

Definition resurfaceScore (now : Z) (m : MemoryItem) : Q :=
  let lastSeen := JS.orZ (lastResurfaced m) (createdAt m) in
  let age := now - lastSeen in
  let importance := JS.orQ (importance (aiMetadata m)) 0.5 in
  let resurfaceCount := JS.orZ (resurfaceCount m) 0 in
  let score := importance in
  let score :=
    if (ONE_WEEK <? age) && (age <? ONE_MONTH) then (score + 0.3)%Q
    else if ONE_MONTH <? age then (score + 0.2)%Q
    else score in
  (score - inject_Z resurfaceCount * 0.1)%Q.

(** [{...c.memory, lastResurfaced: now,
      resurfaceCount: (c.memory.resurfaceCount || 0) + 1}] *)
Definition resurfaced (now : Z) (m : MemoryItem) : MemoryItem :=
  {| id := id m; type := type m; content := content m;
     imageData := imageData m; aiMetadata := aiMetadata m;
     embedding := embedding m; createdAt := createdAt m;
     lastResurfaced := Some now;
     resurfaceCount := Some (JS.orZ (resurfaceCount m) 0 + 1) |}.

Definition candidates (now : Z) (memories : list MemoryItem)
  : list (MemoryItem * Q) :=
  map (fun m => (m, resurfaceScore now m)) memories.

(** The candidates picked, best first, before their bookkeeping is
    updated. *)
Definition chosen (now : Z) (memories : list MemoryItem)
  : list (MemoryItem * Q) :=
  JS.slice0 5 (JS.sort (fun a b => snd b - snd a)%Q (candidates now memories)).

(** The writes of [handleResurface]: each [saveMemory] is started on its
    own and its rejection is caught and logged, so a failed write leaves
    the store as it was and the next one goes on. *)
Definition saveEach (accepts : MemoryItem -> bool) (updates : list MemoryItem)
           (store : Db.Store) : Db.Store :=
  fold_left
    (fun s u =>
       match Db.saveMemory accepts u s with
       | Some s' => s'
       | None => s
       end)
    updates store.

(** What one resurfacing did: the list given to [setSearchResults] ([None]
    when the handler returned before setting anything) and the store after
    the writes. *)
Record ResurfaceRun := {
  shown : option (list MemoryItem);
  stored : Db.Store
}.

Definition handleResurface (accepts : MemoryItem -> bool) (now : Z)
           (memories : list MemoryItem) (store : Db.Store) : ResurfaceRun :=
  if (List.length memories =? 0)%nat
  then {| shown := None; stored := store |}
  else
    let selected := map (fun c => resurfaced now (fst c)) (chosen now memories) in
    {| shown := Some selected; stored := saveEach accepts selected store |}.

(** *** Collections *)

(** [m.aiMetadata.collection || 'General'] *)
Definition collectionName (m : MemoryItem) : string :=
  JS.orString (collection (aiMetadata m)) "General".

(** [collectionMap]: a [Map], its keys in the order they were first set.
    [pushTo] is one round of the [forEach]: set the key to an empty array
    if it is new, then push the id. *)
Fixpoint pushTo (name i : string) (map : list (string * list string))
  : list (string * list string) :=
  match map with
  | [] => [(name, [i])]
  | (k, ids) :: rest =>
      if String.eqb k name then (k, ids ++ [i]) :: rest
      else (k, ids) :: pushTo name i rest
  end.

Definition collectionMapOf (memories : list MemoryItem)
  : list (string * list string) :=
  fold_left (fun map m => pushTo (collectionName m) (id m) map) memories [].

(** The collection one round of the loop saves for [name]. *)
Definition collectionFor (randomUUID : string) (now : Z)
           (existingCollections : list Coll.Collection)
           (name : string) (memoryIds : list string) : Coll.Collection :=
  match find (fun c => String.eqb (Coll.name c) name) existingCollections with
  | Some existing =>
      {| Coll.id := Coll.id existing;
         Coll.name := Coll.name existing;
         Coll.description := Coll.description existing;
         Coll.memoryIds := JS.uniq (Coll.memoryIds existing ++ memoryIds);
         Coll.color := Coll.color existing;
         Coll.createdAt := Coll.createdAt existing |}
  | None =>
      {| Coll.id := randomUUID;
         Coll.name := name;
         Coll.description := None;
         Coll.memoryIds := memoryIds;
         Coll.color := None;
         Coll.createdAt := now |}
  end.

(** The loop over [collectionMap.entries()]: one awaited [saveCollection]
    for each name.  [randomUUID n] and [clock n] are what
    [crypto.randomUUID()] and [Date.now()] answer in round [n].  A rejected
    write throws out of the loop. *)
Fixpoint updateLoop (accepts : Coll.Collection -> bool)
         (randomUUID : nat -> string) (clock : nat -> Z)
         (existingCollections : list Coll.Collection) (round : nat)
         (entries : list (string * list string)) (store : Db.Collections)
  : Db.Collections * bool :=
  match entries with
  | [] => (store, true)
  | (name, memoryIds) :: rest =>
      match Db.saveCollection accepts
              (collectionFor (randomUUID round) (clock round)
                 existingCollections name memoryIds) store with
      | Some store' =>
          updateLoop accepts randomUUID clock existingCollections (S round)
            rest store'
      | None => (store, false)
      end
  end.

Definition updateCollectionsFromMemories (accepts : Coll.Collection -> bool)
           (randomUUID : nat -> string) (clock : nat -> Z)
           (memories : list MemoryItem) (store : Db.Collections)
  : Db.Collections * bool :=
  updateLoop accepts randomUUID clock (Db.getAllCollections store) 0
    (collectionMapOf memories) store.

(** The memories a card of the collections view stands for. *)
Definition collectionMemories (memories : list MemoryItem)
           (c : Coll.Collection) : list MemoryItem :=
  filter
    (fun m =>
       match collection (aiMetadata m) with
       | Some n => String.eqb n (Coll.name c)
       | None => false
       end)
    memories.

(** The memories an entry of the insights view stands for. *)
Definition insightMemories (memories : list MemoryItem) (insight : Insight)
  : list MemoryItem :=
  filter (fun m => existsb (String.eqb (id m)) (memoryIds insight)) memories.

(** *** The state of the component and its handlers *)

Record State := {
  memories : list MemoryItem;
  searchResults : option Results;
  selectedMemory : option MemoryItem
}.

(** [selectedMemory?.id === id] *)
Definition selectedIs (st : State) (k : string) : bool :=
  match selectedMemory st with
  | Some m => String.eqb (id m) k
  | None => false
  end.

(** [prev.filter(m => m.id !== id)] on what is displayed. *)
Definition withoutId (k : string) (r : Results) : Results :=
  match r with
  | Plain ms => Plain (filter (fun m => negb (String.eqb (id m) k)) ms)
  | Scored rs => Scored (filter (fun r => negb (String.eqb (id (item r)) k)) rs)
  end.

(** [handleDelete]: the state is touched only once the awaited
    [deleteMemory] has resolved. *)
Definition handleDelete (allows : string -> bool) (k : string)
           (st : State) (store : Db.Store) : State * Db.Store :=
  match Db.deleteMemory allows k store with
  | None => (st, store)
  | Some store' =>
      ({| memories := filter (fun m => negb (String.eqb (id m) k)) (memories st);
          searchResults := option_map (withoutId k) (searchResults st);
          selectedMemory := if selectedIs st k then None else selectedMemory st |},
       store')
  end.

(** [handleUpdate]: the state is touched only once the awaited
    [saveMemory] has resolved. *)
Definition handleUpdate (accepts : MemoryItem -> bool) (updatedItem : MemoryItem)
           (st : State) (store : Db.Store) : State * Db.Store :=
  match Db.saveMemory accepts updatedItem store with
  | None => (st, store)
  | Some store' =>
      ({| memories :=
            map (fun m => if String.eqb (id m) (id updatedItem) then updatedItem else m)
              (memories st);
          searchResults := searchResults st;
          selectedMemory :=
            if selectedIs st (id updatedItem) then Some updatedItem
            else selectedMemory st |},
       store')
  end.

(** [displayMemories = searchResults || memories]: an empty array of
    results is truthy, only [null] gives way to the corpus. *)
Definition displayMemories (st : State) : list MemoryItem :=
  match searchResults st with
  | Some r => resultItems r
  | None => memories st
  end.

End App.

(** ** The detail view (components/MemoryDetail) *)

Module Detail.

Definition withTopics (item : MemoryItem) (ts : list string) : MemoryItem :=
  {| id := id item; type := type item; content := content item;
     imageData := imageData item;
     aiMetadata :=
       {| summary := summary (aiMetadata item);
          topics := ts;
          mood := mood (aiMetadata item);
          colors := colors (aiMetadata item);
          collection := collection (aiMetadata item);
          relatedMemoryIds := relatedMemoryIds (aiMetadata item);
          importance := importance (aiMetadata item) |};
     embedding := embedding item; createdAt := createdAt item;
     lastResurfaced := lastResurfaced item;
     resurfaceCount := resurfaceCount item |}.

Definition withSummary (item : MemoryItem) (s : string) : MemoryItem :=
  {| id := id item; type := type item; content := content item;
     imageData := imageData item;
     aiMetadata :=
       {| summary := s;
          topics := topics (aiMetadata item);
          mood := mood (aiMetadata item);
          colors := colors (aiMetadata item);
          collection := collection (aiMetadata item);
          relatedMemoryIds := relatedMemoryIds (aiMetadata item);
          importance := importance (aiMetadata item) |};
     embedding := embedding item; createdAt := createdAt item;
     lastResurfaced := lastResurfaced item;
     resurfaceCount := resurfaceCount item |}.

(** [handleSave] of the view: what it passes to [onUpdate]. *)
Definition handleSave (item : MemoryItem) (editedSummary : string) : MemoryItem :=
  withSummary item editedSummary.

(** [removeTopic]: what it passes to [onUpdate]. *)
Definition removeTopic (item : MemoryItem) (topic : string) : MemoryItem :=
  withTopics item
    (filter (fun t => negb (String.eqb t topic)) (topics (aiMetadata item))).


End Detail.

(** ** Notions used in the statements *)

Module Notions.

(** An empty string, or one made of white space only. *)
Definition whitespaceOnly (s : string) : Prop :=
  forall c, In c (list_ascii_of_string s) -> JS.isWhiteSpace c = true.

(** [sub] occurs in [s]. *)
Definition occursIn (sub s : string) : Prop :=
  exists pre post, s = (pre ++ sub ++ post)%string.

(** Some topic of [memory] equals some topic of [other] up to case. *)
Definition sharesTopic (memory other : MemoryItem) : Prop :=
  exists t ot,
    In t (topics (aiMetadata memory))
    /\ In ot (topics (aiMetadata other))
    /\ JS.toLowerCase ot = JS.toLowerCase t.

(** The metadata fields other than [relatedMemoryIds]. *)
Definition sameAnalysis (a b : AIMetadata) : Prop :=
  summary a = summary b /\ topics a = topics b /\ mood a = mood b
  /\ colors a = colors b /\ collection a = collection b
  /\ importance a = importance b.

(** The fields of a memory other than [relatedMemoryIds], [lastResurfaced]
    and [resurfaceCount]. *)
Definition sameContent (a b : MemoryItem) : Prop :=
  id a = id b /\ type a = type b /\ content a = content b
  /\ imageData a = imageData b /\ embedding a = embedding b
  /\ createdAt a = createdAt b
  /\ sameAnalysis (aiMetadata a) (aiMetadata b).

(** Only [relatedMemoryIds] may differ. *)
Definition sameButRelated (a b : MemoryItem) : Prop :=
  sameContent a b
  /\ lastResurfaced a = lastResurfaced b
  /\ resurfaceCount a = resurfaceCount b.



(** The corpus handed to an operation is what the store holds. *)
Definition snapshotOf (store : Db.Store) (corpus : list MemoryItem) : Prop :=
  forall m, In m corpus -> Db.get (id m) store = Some m.


Definition isPattern (i : Insight) : bool :=
  match insightType i with pattern => true | _ => false end.

Definition patternInsights (l : list Insight) : list Insight :=
  filter isPattern l.

(** The number of memories that carry [topic]. *)
Definition carriers (topic : string) (memories : list MemoryItem) : nat :=
  List.length (filter (Gemini.hasTopic topic) memories).





(** The pattern insight for a topic listed by [count] memories. *)
Definition patternFor (memories : list MemoryItem) (e : string * nat) : Insight :=
  {| insightType := pattern;
     title := "Recurring Topic: " ++ fst e;
     description := "You've saved " ++ JS.showNat (snd e)
                    ++ " memories related to " ++ fst e;
     memoryIds := map id (filter (Gemini.hasTopic (fst e)) memories);
     relevance := Qmin 1 (inject_Z (Z.of_nat (snd e))
                          / inject_Z (Z.of_nat (List.length memories))) |}.

(** The ids of the memories filed under [name], in corpus order. *)
Definition filedUnder (name : string) (memories : list MemoryItem)
  : list string :=
  map id (filter (fun m => String.eqb (App.collectionName m) name) memories).

(** The ids recorded for [name] in a [collectionMap], none when the name
    has no entry. *)
Definition idsOf (map : list (string * list string)) (name : string)
  : list string :=
  match find (fun e => String.eqb (fst e) name) map with
  | Some e => snd e
  | None => []
  end.

(** What is stored under a key of the collections store. *)
Definition getCollection (k : string) (s : Db.Collections)
  : option Coll.Collection :=
  find (fun c => String.eqb (Coll.id c) k) s.

(** [b] is [a] with, possibly, more members. *)
Definition grownFrom (a b : Coll.Collection) : Prop :=
  Coll.id b = Coll.id a /\ Coll.name b = Coll.name a
  /\ Coll.description b = Coll.description a
  /\ Coll.color b = Coll.color a
  /\ Coll.createdAt b = Coll.createdAt a
  /\ incl (Coll.memoryIds a) (Coll.memoryIds b)
  /\ (NoDup (Coll.memoryIds a) -> NoDup (Coll.memoryIds b)).

(** Every collection of [before] is still in [after] under its key, grown
    at most. *)
Definition storeGrown (before after : Db.Collections) : Prop :=
  forall k a, getCollection k before = Some a ->
              exists b, getCollection k after = Some b /\ grownFrom a b.

(** [l'] is [l] with some elements left out. *)
Inductive subseq {A : Type} : list A -> list A -> Prop :=
| subseq_nil : subseq [] []
| subseq_skip x l' l : subseq l' l -> subseq l' (x :: l)
| subseq_keep x l' l : subseq l' l -> subseq (x :: l') (x :: l).

(** A memory rated above 0.6 and not seen for more than 30 days. *)
Definition overdue (now : Z) (m : MemoryItem) : Prop :=
  30 * 86400000 < now - JS.orZ (lastResurfaced m) (createdAt m)
  /\ exists v, importance (aiMetadata m) = Some v /\ (0.6 < v)%Q.

(** The value of an optional counter, [0] when it is missing. *)
Definition countOr0 (x : option Z) : Z :=
  match x with Some c => c | None => 0 end.

(** The field [k] of what the provider sent, when that is an object. *)
Definition sent (reply : Gemini.Reply) (k : string) : option Gemini.JSON :=
  match reply with
  | Gemini.Parsed (Gemini.JObject fields) => Gemini.lookup k fields
  | _ => None
  end.

(** [Math.max(0, Math.min(1, q))] spelled by cases. *)
Definition clamp01 (q : Q) : Q :=
  if Qle_bool q 0 then 0%Q else if Qle_bool 1 q then 1%Q else q.

End Notions.

(** ** Sample data *)

Module Sample.

Definition meta (s : string) (ts ms : list string) (imp : option Q)
  : AIMetadata :=
  {| summary := s; topics := ts; mood := ms; colors := [];
     collection := None; relatedMemoryIds := None; importance := imp |}.

Definition memory (i c : string) (a : AIMetadata) (created : Z)
  : MemoryItem :=
  {| id := i; type := note; content := c; imageData := None;
     aiMetadata := a; embedding := []; createdAt := created;
     lastResurfaced := None; resurfaceCount := None |}.

(** A note whose only link to the word calm is its mood. *)
Definition breathing : MemoryItem :=
  memory "m1" "Breathing exercise" (meta "A short routine" ["Health"] ["Calm"] None) 1000.

Definition packing : MemoryItem :=
  memory "m2" "Packing list" (meta "Things to take" ["Travel"] [] (Some 0.9%Q)) 2000.

Definition tagged (i : string) (ts : list string) : MemoryItem :=
  memory i "note" (meta "text" ts [] None) 0.

(** Five memories tagged Design and one tagged Travel. *)
Definition designCorpus : list MemoryItem :=
  [ tagged "d1" ["Design"]; tagged "d2" ["Design"]; tagged "d3" ["Design"];
    tagged "d4" ["Design"]; tagged "d5" ["Design"]; tagged "t1" ["Travel"] ].

(** Five memories tagged Design, the last of them tagged Travel too. *)
Definition designOnlyCorpus : list MemoryItem :=
  [ tagged "d1" ["Design"]; tagged "d2" ["Design"]; tagged "d3" ["Design"];
    tagged "d4" ["Design"]; tagged "d5" ["Design"; "Travel"] ].


(** A store that takes every write, and one that refuses the records of
    one key. *)
Definition allWrites : MemoryItem -> bool := fun _ => true.
Definition refusing (k : string) : MemoryItem -> bool :=
  fun m => negb (String.eqb (id m) k).

(** The dot product, which is the cosine similarity on unit vectors; [0]
    when the lengths differ or a vector is empty. *)
Fixpoint dotProduct (a b : list Q) : option Q :=
  match a, b with
  | [], [] => Some 0%Q
  | x :: a', y :: b' =>
      match dotProduct a' b' with
      | Some d => Some (x * y + d)%Q
      | None => None
      end
  | _, _ => None
  end.

Definition unitSimilarity (a b : list Q) : Q :=
  match a, dotProduct a b with
  | _ :: _, Some d => Qred d
  | _, _ => 0%Q
  end.

Definition embedded (i : string) (ts : list string) (e : list Q) : MemoryItem :=
  {| id := i; type := note; content := "note"; imageData := None;
     aiMetadata := meta "text" ts [] None; embedding := e; createdAt := 0;
     lastResurfaced := None; resurfaceCount := None |}.

(** Seven memories around a new one pointing along the first axis. *)
Definition axisCorpus : list MemoryItem :=
  [ embedded "a" [] [1; 0]%Q;
    embedded "b" ["Code"] [0.6; 0.8]%Q;
    embedded "c" [] [0.6; 0.8]%Q;
    embedded "new" ["code"] [1; 0]%Q;
    embedded "d" [] [0.8; 0.6]%Q;
    embedded "e" [] [0; 1]%Q;
    embedded "f" [] [1; 0]%Q;
    embedded "g" [] [0.8; 0.6]%Q;
    embedded "h" [] [1; 0]%Q ].

(** Keys that are all different: u, ux, uxx, ... *)
Fixpoint tally (n : nat) : string :=
  match n with
  | O => EmptyString
  | S k => String "x" (tally k)
  end.

Definition freshKey (n : nat) : string := String "u" (tally n).

Definition workCollection : Coll.Collection :=
  {| Coll.id := "c1"; Coll.name := "Work"; Coll.description := None;
     Coll.memoryIds := ["w0"]; Coll.color := None; Coll.createdAt := 5 |}.

Definition workNote : MemoryItem :=
  {| id := "w1"; type := note; content := "plan"; imageData := None;
     aiMetadata :=
       {| summary := "s"; topics := []; mood := []; colors := [];
          collection := Some "Work"; relatedMemoryIds := None;
          importance := None |};
     embedding := []; createdAt := 7; lastResurfaced := None;
     resurfaceCount := None |}.

(** A similarity that sees nothing, and a provider whose embedding call
    fails. *)
Definition noSimilarity : list Q -> list Q -> Q := fun _ _ => 0%Q.
Definition embeddingDown : string -> list Q := fun _ => [].
Definition embeddingUp : string -> list Q := fun _ => [1%Q].

(** An analysis whose summary came back as a number. *)
Definition numericSummary : Gemini.Reply :=
  Gemini.Parsed
    (Gemini.JObject
       [ ("summary", Gemini.JNumber 7);
         ("topics", Gemini.JArray [Gemini.JString "Code"]);
         ("mood", Gemini.JArray []) ]).

Definition wellFormed : Gemini.Reply :=
  Gemini.Parsed
    (Gemini.JObject
       [ ("summary", Gemini.JString "A note about code");
         ("topics", Gemini.JArray [Gemini.JString "Code"]);
         ("mood", Gemini.JArray []);
         ("importance", Gemini.JNumber 1.5) ]).

End Sample.

(** * Facts about the built-ins *)

Module JSFacts.

Lemma Qltb_lt a b : JS.Qltb a b = true <-> (a < b)%Q.
Proof.
  unfold JS.Qltb. rewrite negb_true_iff.
  split; intro H.
  - apply Qnot_le_lt. intro L. apply Qle_bool_iff in L. congruence.
  - destruct (Qle_bool b a) eqn:E; [|reflexivity].
    apply Qle_bool_iff in E. lra.
Qed.

Lemma Qltb_ge a b : JS.Qltb a b = false <-> (b <= a)%Q.
Proof.
  unfold JS.Qltb. rewrite negb_false_iff. apply Qle_bool_iff.
Qed.

Section Sorting.
Context {A : Type}.
Variable cmp : A -> A -> Q.

Lemma insertBy_perm x l : Permutation (JS.insertBy cmp x l) (x :: l).
Proof.
  induction l as [|y l IH]; simpl; [reflexivity|].
  destruct (JS.Qltb 0 (cmp x y)); [|reflexivity].
  rewrite IH. apply perm_swap.
Qed.

Lemma sort_perm l : Permutation (JS.sort cmp l) l.
Proof.
  induction l as [|x l IH]; simpl; [reflexivity|].
  rewrite insertBy_perm. now constructor.
Qed.


Lemma sort_In x l : In x (JS.sort cmp l) <-> In x l.
Proof.
  split; apply Permutation_in; [|symmetry]; apply sort_perm.
Qed.
End Sorting.

Section Descending.
Context {A : Type}.
Variable key : A -> Q.

Lemma insertBy_descending x l :
  StronglySorted (fun a b => key b <= key a)%Q l ->
  StronglySorted (fun a b => key b <= key a)%Q
    (JS.insertBy (fun a b => key b - key a)%Q x l).
Proof.
  induction 1 as [|y l Hl IH Hy]; simpl.
  - repeat constructor.
  - destruct (JS.Qltb 0 (key y - key x)) eqn:E.
    + constructor; [exact IH|].
      apply Forall_forall. intros z Hz.
      apply (Permutation_in _ (insertBy_perm _ x l)) in Hz.
      destruct Hz as [<-|Hz].
      * apply Qltb_lt in E. lra.
      * rewrite Forall_forall in Hy. now apply Hy.
    + apply Qltb_ge in E.
      constructor; [now constructor|].
      constructor; [lra|].
      rewrite Forall_forall in *. intros z Hz.
      specialize (Hy z Hz). simpl in Hy. lra.
Qed.

Lemma sort_descending l :
  StronglySorted (fun a b => key b <= key a)%Q (JS.sort (fun a b => key b - key a)%Q l).
Proof.
  induction l; simpl; [constructor|]. now apply insertBy_descending.
Qed.
End Descending.

Lemma firstn_In {A} (x : A) n l : In x (firstn n l) -> In x l.
Proof.
  revert l; induction n as [|n IH]; intros [|y l]; simpl; try tauto.
  intros [E|H]; [now left|right; now apply IH].
Qed.


Lemma StronglySorted_filter {A} (R : A -> A -> Prop) f l :
  StronglySorted R l -> StronglySorted R (filter f l).
Proof.
  induction 1 as [|x l Hl IH Hx]; simpl; [constructor|].
  destruct (f x); [|exact IH].
  constructor; [exact IH|].
  rewrite Forall_forall in *. intros y Hy.
  apply filter_In in Hy. now apply Hx.
Qed.


End JSFacts.

Import Notions.

Module StringFacts.

Lemma falsyString_iff s : JS.falsyString s = true <-> s = EmptyString.
Proof. destruct s; simpl; split; congruence. Qed.

Lemma whitespaceOnly_nil : whitespaceOnly EmptyString.
Proof. intros c []. Qed.

Lemma whitespaceOnly_cons c s :
  whitespaceOnly (String c s) <-> JS.isWhiteSpace c = true /\ whitespaceOnly s.
Proof.
  unfold whitespaceOnly; simpl. split.
  - intros H; split; [apply H; now left|intros d Hd; apply H; now right].
  - intros [Hc Hs] d [<-|Hd]; auto.
Qed.

Lemma trimEnd_empty s : JS.trimEnd s = EmptyString <-> whitespaceOnly s.
Proof.
  induction s as [|c s IH]; simpl.
  - split; [intros _; apply whitespaceOnly_nil|reflexivity].
  - rewrite whitespaceOnly_cons, <- IH.
    destruct (JS.trimEnd s); destruct (JS.isWhiteSpace c);
      split; try tauto; try discriminate; intros [H1 H2]; discriminate.
Qed.

Lemma trimStart_blank s : whitespaceOnly (JS.trimStart s) <-> whitespaceOnly s.
Proof.
  induction s as [|c s IH]; simpl; [tauto|].
  destruct (JS.isWhiteSpace c) eqn:E.
  - rewrite IH, whitespaceOnly_cons. tauto.
  - tauto.
Qed.

(** [!s.trim()] holds exactly when [s] is empty or white space only. *)
Lemma trim_blank s :
  JS.falsyString (JS.trim s) = true <-> whitespaceOnly s.
Proof.
  unfold JS.trim.
  rewrite falsyString_iff, trimEnd_empty. apply trimStart_blank.
Qed.

Lemma trim_not_blank s :
  JS.falsyString (JS.trim s) = false <-> ~ whitespaceOnly s.
Proof.
  rewrite <- trim_blank. destruct (JS.falsyString (JS.trim s)); split; congruence.
Qed.

Lemma prefix_occurs sub s :
  String.prefix sub s = true <-> exists post, s = (sub ++ post)%string.
Proof.
  revert s; induction sub as [|c sub IH]; intros s.
  - split; [intros _; now exists s|intros _; now destruct s].
  - destruct s as [|d s]; simpl.
    + split; [discriminate|intros [post H]; discriminate].
    + destruct (ascii_dec c d) as [->|N].
      * rewrite IH. split; intros [post H]; exists post;
          [now rewrite H|now inversion H].
      * split; [discriminate|intros [post H]; inversion H; congruence].
Qed.

Lemma includes_nil sub :
  JS.includes EmptyString sub = String.prefix sub EmptyString.
Proof. simpl. apply orb_false_r. Qed.

Lemma includes_cons c s sub :
  JS.includes (String c s) sub
  = String.prefix sub (String c s) || JS.includes s sub.
Proof. reflexivity. Qed.

(** [includes] is the substring test. *)
Lemma includes_occurs s sub :
  JS.includes s sub = true <-> occursIn sub s.
Proof.
  unfold occursIn.
  induction s as [|c s IH].
  - rewrite includes_nil, prefix_occurs. split.
    + intros [post H]; now exists EmptyString, post.
    + intros [[|d pre] [post H]]; [now exists post|discriminate].
  - rewrite includes_cons, orb_true_iff, IH, prefix_occurs. split.
    + intros [[post H]|[pre [post H]]].
      * now exists EmptyString, post.
      * exists (String c pre), post. simpl. now rewrite H.
    + intros [[|d pre] [post H]].
      * left. now exists post.
      * right. inversion H; subst. now exists pre, post.
Qed.

End StringFacts.

(** * Hybrid search *)

Module SearchFacts.

Import StringFacts JSFacts.


Lemma filter_none {A} (f : A -> bool) l :
  (forall x, In x l -> f x = false) -> filter f l = [].
Proof.
  induction l as [|x l IH]; simpl; intros H; [reflexivity|].
  rewrite (H x) by now left. apply IH. intros; apply H; now right.
Qed.

Lemma length_zero_iff {A} (l : list A) :
  (List.length l =? 0)%nat = true <-> l = [].
Proof. destruct l; simpl; split; congruence. Qed.


Lemma recencyScore_range NOW m :
  (0 <= App.recencyScore NOW m)%Q
  /\ (createdAt m <= NOW -> (App.recencyScore NOW m <= 1)%Q).
Proof.
  unfold App.recencyScore. split; [apply Q.le_max_l|].
  intros H. apply Q.max_lub; [lra|].
  assert (0 <= inject_Z (NOW - createdAt m) / inject_Z (60 * ONE_DAY))%Q.
  { apply Qle_shift_div_l; [reflexivity|].
    rewrite Qmult_0_l. change 0%Q with (inject_Z 0).
    rewrite <- Zle_Qle. lia. }
  lra.
Qed.


Section Run.
Variable cosineSimilarity : list Q -> list Q -> Q.
Variable getEmbedding : string -> list Q.
Variable NOW : Z.
Variable memories : list MemoryItem.

Lemma run_blank q :
  whitespaceOnly q ->
  App.performSearch cosineSimilarity getEmbedding NOW q memories = {| App.delivered := None; App.embeddingCalls := [] |}.
Proof.
  intros H. apply trim_blank in H. unfold App.performSearch. now rewrite H.
Qed.

Lemma run_short q :
  ~ whitespaceOnly q -> (String.length q < 3)%nat ->
  App.performSearch cosineSimilarity getEmbedding NOW q memories = {| App.delivered :=
               Some (Plain (filter (App.matchesKeyword (JS.toLowerCase q)) memories));
             App.embeddingCalls := [] |}.
Proof.
  intros H L. apply trim_not_blank in H. unfold App.performSearch. rewrite H.
  apply Nat.ltb_lt in L. now rewrite L.
Qed.

Lemma run_hybrid q :
  ~ whitespaceOnly q -> (3 <= String.length q)%nat ->
  App.performSearch cosineSimilarity getEmbedding NOW q memories =
    let lowerQ := JS.toLowerCase q in
    let scoredResults :=
      match getEmbedding q with
      | [] => []
      | _ :: _ =>
          map (App.scoreMemory cosineSimilarity NOW lowerQ (getEmbedding q)) memories
      end in
    let ranked :=
      filter (fun r => JS.Qltb 0.40 (score r))
        (JS.sort (fun a b => score b - score a)%Q scoredResults) in
    {| App.delivered :=
         Some (Scored (match ranked with
                       | [] => App.fallbackResults lowerQ memories
                       | _ :: _ => ranked
                       end));
       App.embeddingCalls := [q] |}.
Proof.
  intros H L. apply trim_not_blank in H. unfold App.performSearch. rewrite H.
  apply Nat.ltb_ge in L. rewrite L. cbv zeta.
  replace (0 <? List.length (getEmbedding q))%nat
    with (match getEmbedding q with [] => false | _ => true end)
    by now destruct (getEmbedding q).
  destruct (getEmbedding q) as [|e qe]; simpl; [reflexivity|].
  destruct (filter _ _); reflexivity.
Qed.

End Run.

End SearchFacts.

Module SearchSpec.

Import StringFacts JSFacts SearchFacts.








(** C1, as amended.  In the hybrid path, when the query embedding comes
    back empty no memory is scored: the embedding call is the only one
    made, and the result is the fallback, that is exactly the memories whose
    lower-cased content, summary and topics text contains the lower-cased
    query, in corpus order, each with score 0.5. *)
Theorem empty_embedding_falls_back
        (cosineSimilarity : list Q -> list Q -> Q)
        (getEmbedding : string -> list Q) (NOW : Z) (q : string)
        (memories : list MemoryItem) :
  ~ whitespaceOnly q ->
  (3 <= String.length q)%nat ->
  getEmbedding q = [] ->
  let lowerQ := JS.toLowerCase q in
  App.performSearch cosineSimilarity getEmbedding NOW q memories
  = {| App.delivered :=
         Some (Scored
                 (map (fun m => {| item := m; score := 0.5 |})
                    (filter (fun m => JS.includes (App.allText m) lowerQ) memories)));
       App.embeddingCalls := [q] |}.
Proof.
  intros H L E lowerQ.
  rewrite run_hybrid by assumption. rewrite E. reflexivity.
Qed.

Lemma empty_embedding_falls_back_witness :
  App.performSearch Sample.noSimilarity Sample.embeddingDown 1000 "exercise"
    [Sample.breathing; Sample.packing]
  = {| App.delivered := Some (Scored [ {| item := Sample.breathing; score := 0.5 |} ]);
       App.embeddingCalls := ["exercise"] |}.
Proof.
  assert (N : ~ whitespaceOnly "exercise").
  { intros H. specialize (H "e"%char (or_introl eq_refl)). discriminate. }
  assert (L : (3 <= String.length "exercise")%nat) by (simpl; lia).
  exact (empty_embedding_falls_back Sample.noSimilarity Sample.embeddingDown
           1000 [Sample.breathing; Sample.packing] N L eq_refl).
Defined.

(** C1 as stated fails: the boosts of this memory for the query add up to
    more than 0.40 (it is new, and its mood is the query), and with the
    embedding call failing nothing is returned, while the same search with
    an embedding returns it. *)
Lemma empty_embedding_counterexample :
  (0.40 < App.boosts 1000 (JS.toLowerCase "calm") Sample.breathing)%Q
  /\ App.delivered
       (App.performSearch Sample.noSimilarity Sample.embeddingDown 1000 "calm"
          [Sample.breathing]) = Some (Scored [])
  /\ exists rs,
      App.delivered
        (App.performSearch Sample.noSimilarity Sample.embeddingUp 1000 "calm"
           [Sample.breathing]) = Some (Scored rs)
      /\ map item rs = [Sample.breathing].
Proof.
  split; [reflexivity|]. split; [reflexivity|].
  eexists. split; reflexivity.
Qed.

(** Two fresh memories and a query that no text contains: the one closer
    to the query embedding comes first (1.15 against 0.75), whatever the
    corpus order, and a memory orthogonal to the query stays out (0.15 is
    not above 0.40). *)
Lemma hybrid_ranking_example :
  let corpus :=
    [ Sample.embedded "x" [] [0.6; 0.8]%Q; Sample.embedded "o" [] [0; 1]%Q;
      Sample.embedded "y" [] [1; 0]%Q ] in
  match App.delivered
          (App.performSearch Sample.unitSimilarity (fun _ => [1; 0]%Q) 0
             "zzz" corpus) with
  | Some (Scored rs) =>
      map (fun r => (id (item r), Qred (score r))) rs
      = [("y", 23 # 20); ("x", 3 # 4)]
  | _ => False
  end.
Proof. vm_compute. reflexivity. Qed.

End SearchSpec.

(** * Relation linker and store *)

Module StoreFacts.

Lemma get_put k m s :
  Db.get k (Db.put m s)
  = if String.eqb (id m) k then Some m else Db.get k s.
Proof.
  unfold Db.get.
  induction s as [|x s IH]; simpl.
  - reflexivity.
  - destruct (String.eqb (id x) (id m)) eqn:E; simpl.
    + apply String.eqb_eq in E. rewrite E.
      now destruct (String.eqb (id m) k).
    + rewrite IH.
      destruct (String.eqb (id x) k) eqn:K; [|reflexivity].
      apply String.eqb_eq in K. subst k.
      rewrite String.eqb_sym, E. reflexivity.
Qed.

Section Keywise.
Variable R : MemoryItem -> MemoryItem -> Prop.
Hypothesis R_refl : forall m, R m m.



End Keywise.






Lemma updatedRelated_frame newId m : sameButRelated m (App.updatedRelated newId m).
Proof. repeat split. Qed.


Lemma orZ_default0 x : JS.orZ x 0 = countOr0 x.
Proof.
  destruct x as [v|]; simpl; [|reflexivity].
  destruct (Z.eqb_spec v 0); congruence.
Qed.

End StoreFacts.

Module LinkerFacts.

Import StoreFacts.


End LinkerFacts.

Module LinkerSpec.

Import JSFacts StoreFacts.

Lemma topicOverlap_positive memory other :
  (0 <? Gemini.topicOverlap memory other)%nat = true <-> sharesTopic memory other.
Proof.
  unfold Gemini.topicOverlap, sharesTopic.
  rewrite Nat.ltb_lt.
  set (f := fun t => existsb _ _).
  split.
  - intros H.
    destruct (filter f (topics (aiMetadata memory))) as [|t l] eqn:E;
      [simpl in H; lia|].
    assert (I : In t (filter f (topics (aiMetadata memory))))
      by (rewrite E; now left).
    apply filter_In in I. destruct I as [I1 I2].
    subst f. apply existsb_exists in I2. destruct I2 as [ot [O1 O2]].
    exists t, ot. repeat split; auto. now apply String.eqb_eq.
  - intros [t [ot [I1 [I2 E]]]].
    assert (I : In t (filter f (topics (aiMetadata memory)))).
    { apply filter_In. split; [exact I1|].
      subst f. apply existsb_exists. exists ot. split; [exact I2|].
      now apply String.eqb_eq. }
    destruct (filter f _); [destruct I|simpl; lia].
Qed.

Lemma relatedLoop_filter cs memory allMemories threshold :
  Gemini.relatedLoop cs memory allMemories threshold
  = map id
      (filter
         (fun other =>
            negb (String.eqb (id other) (id memory))
            && Qle_bool threshold (Gemini.finalScore cs memory other))
         allMemories).
Proof.
  induction allMemories as [|other rest IH]; simpl; [reflexivity|].
  destruct (String.eqb (id other) (id memory)); simpl; [exact IH|].
  destruct (Qle_bool threshold _); simpl; now rewrite IH.
Qed.

(** C3.  [findRelatedMemories] returns the ids of the first five memories,
    in corpus order, that are not the memory itself (by id) and whose
    [finalScore] reaches the threshold; so it never returns the memory's own
    id, returns at most five ids, and every id it returns is that of a
    memory of the corpus whose [finalScore] reaches the threshold.  The
    [finalScore] is the similarity, plus 0.1 when some topic of the memory
    equals, up to case, some topic of the other one. *)
Theorem related_ids_are_first_five_matches
        (cosineSimilarity : list Q -> list Q -> Q)
        (memory : MemoryItem) (allMemories : list MemoryItem) (threshold : Q) :
  let finalScore := Gemini.finalScore cosineSimilarity memory in
  let matches other :=
    negb (String.eqb (id other) (id memory))
    && Qle_bool threshold (finalScore other) in
  let ids :=
    Gemini.findRelatedMemories cosineSimilarity memory allMemories threshold in
  ids = firstn 5 (map id (filter matches allMemories))
  /\ ~ In (id memory) ids
  /\ (List.length ids <= 5)%nat
  /\ (forall i, In i ids ->
        exists other,
          In other allMemories /\ id other = i /\ id other <> id memory
          /\ (threshold <= finalScore other)%Q)
  /\ (forall other,
        let similarity := cosineSimilarity (embedding memory) (embedding other) in
        (sharesTopic memory other -> finalScore other == similarity + 0.1)%Q
        /\ (~ sharesTopic memory other -> finalScore other == similarity)%Q).
Proof.
  intros finalScore matches ids.
  assert (E : ids = firstn 5 (map id (filter matches allMemories))).
  { subst ids. unfold Gemini.findRelatedMemories, JS.slice0.
    now rewrite relatedLoop_filter. }
  assert (M : forall i, In i ids ->
                exists other,
                  In other allMemories /\ id other = i /\ id other <> id memory
                  /\ (threshold <= finalScore other)%Q).
  { intros i Hi. rewrite E in Hi. apply firstn_In in Hi.
    apply in_map_iff in Hi. destruct Hi as [other [<- Ho]].
    apply filter_In in Ho. destruct Ho as [Ho Hm].
    subst matches. apply andb_true_iff in Hm. destruct Hm as [N S].
    exists other. repeat split; auto.
    - apply negb_true_iff in N. now apply String.eqb_neq.
    - now apply Qle_bool_iff. }
  split; [exact E|]. split; [|split; [|split; [exact M|]]].
  - intros Own. destruct (M _ Own) as [other [_ [I [N _]]]]. now apply N.
  - rewrite E. apply firstn_le_length.
  - intros other similarity. subst finalScore. unfold Gemini.finalScore.
    fold similarity.
    destruct (0 <? Gemini.topicOverlap memory other)%nat eqn:O.
    + split; [reflexivity|].
      intros N. exfalso. apply N. now apply topicOverlap_positive.
    + split; [|intros _; ring].
      intros S. apply topicOverlap_positive in S. congruence.
Qed.

(** The new memory points along the first axis.  [b] reaches the default
    threshold through the topic it shares up to case (0.6 + 0.1), [c] with
    the same vector does not, [e] is orthogonal; of the six matches the
    first five are returned, in corpus order, and the memory itself is not
    among them. *)
Lemma related_ids_example :
  Gemini.findRelatedMemories Sample.unitSimilarity
    (Sample.embedded "new" ["code"] [1; 0]%Q) Sample.axisCorpus
    Gemini.defaultThreshold
  = ["a"; "b"; "d"; "f"; "g"].
Proof. reflexivity. Qed.

End LinkerSpec.

(** * Resurfacing *)

Module ResurfaceFacts.

Import JSFacts StoreFacts.

Section Keyed.
Context {A : Type}.
Variable key : A -> Q.

Let pair (x : A) : A * Q := (x, key x).

Lemma insertBy_keyed x l :
  JS.insertBy (fun a b => snd b - snd a)%Q (pair x) (map pair l)
  = map pair (JS.insertBy (fun a b => key b - key a)%Q x l).
Proof.
  induction l as [|y l IH]; simpl; [reflexivity|].
  destruct (JS.Qltb 0 (key y - key x)); simpl; [now rewrite IH|reflexivity].
Qed.

(** Sorting the candidates by their recorded score is sorting the
    memories by [key]. *)
Lemma sort_keyed l :
  JS.sort (fun a b => snd b - snd a)%Q (map pair l)
  = map pair (JS.sort (fun a b => key b - key a)%Q l).
Proof.
  induction l as [|x l IH]; simpl; [reflexivity|].
  rewrite IH. apply insertBy_keyed.
Qed.
End Keyed.

(** The memories picked by [handleResurface], best first. *)
Lemma chosen_memories now memories :
  map fst (App.chosen now memories)
  = firstn 5 (JS.sort (fun a b => App.resurfaceScore now b - App.resurfaceScore now a)%Q
                memories).
Proof.
  unfold App.chosen, App.candidates, JS.slice0.
  rewrite (sort_keyed (App.resurfaceScore now)), firstn_map, map_map. simpl.
  apply map_id.
Qed.

Lemma bonus_cases now m :
  let age := now - JS.orZ (lastResurfaced m) (createdAt m) in
  let base := JS.orQ (importance (aiMetadata m)) 0.5 in
  let fatigue := (inject_Z (JS.orZ (resurfaceCount m) 0) * 0.1)%Q in
  (ONE_WEEK < age < ONE_MONTH ->
   App.resurfaceScore now m = (base + 0.3 - fatigue)%Q)
  /\ (ONE_MONTH < age ->
      App.resurfaceScore now m = (base + 0.2 - fatigue)%Q)
  /\ (age <= ONE_WEEK \/ age = ONE_MONTH ->
      App.resurfaceScore now m = (base - fatigue)%Q).
Proof.
  intros age base fatigue. unfold App.resurfaceScore. fold age base fatigue.
  repeat split.
  - intros [L U]. apply Z.ltb_lt in L, U. now rewrite L, U.
  - intros L.
    assert (U : (age <? ONE_MONTH) = false) by (apply Z.ltb_ge; lia).
    apply Z.ltb_lt in L. now rewrite U, andb_false_r, L.
  - intros H.
    assert (W : (ONE_WEEK <? age) && (age <? ONE_MONTH) = false).
    { apply andb_false_iff.
      destruct H as [H|H]; [left|right]; apply Z.ltb_ge; lia. }
    assert (M : (ONE_MONTH <? age) = false).
    { apply Z.ltb_ge. unfold ONE_WEEK, ONE_MONTH in *. lia. }
    now rewrite W, M.
Qed.


End ResurfaceFacts.

Module ResurfaceSpec.

Import JSFacts StoreFacts ResurfaceFacts.

(** C2, as amended.  For every memory whose importance is missing or is not
    zero, the resurfacing score is the importance (0.5 when missing), plus
    0.3 when the age is more than 7 days and less than 30 days, plus 0.2
    when the age is more than 30 days, plus nothing when the age is 7 days
    or less, minus 0.1 for each earlier resurfacing, with no lower bound.
    The age is counted from [lastResurfaced || createdAt]. *)
Theorem resurface_score_by_age (now : Z) (m : MemoryItem) :
  (forall v, importance (aiMetadata m) = Some v -> ~ (v == 0)%Q) ->
  let age := now - JS.orZ (lastResurfaced m) (createdAt m) in
  let base :=
    match importance (aiMetadata m) with Some v => v | None => 0.5%Q end in
  let fatigue := (0.1 * inject_Z (countOr0 (resurfaceCount m)))%Q in
  (7 * 86400000 < age < 30 * 86400000 ->
   (App.resurfaceScore now m == base + 0.3 - fatigue)%Q)
  /\ (30 * 86400000 < age ->
      (App.resurfaceScore now m == base + 0.2 - fatigue)%Q)
  /\ (age <= 7 * 86400000 ->
      (App.resurfaceScore now m == base - fatigue)%Q).
Proof.
  intros NZ age base fatigue.
  assert (B : JS.orQ (importance (aiMetadata m)) 0.5 = base).
  { subst base. unfold JS.orQ.
    destruct (importance (aiMetadata m)) as [v|]; [|reflexivity].
    destruct (Qeq_bool v 0) eqn:E; [|reflexivity].
    apply Qeq_bool_iff in E. now destruct (NZ v eq_refl). }
  destruct (bonus_cases now m) as [S [O F]].
  rewrite B, orZ_default0 in S, O, F.
  change (7 * 86400000) with ONE_WEEK.
  change (30 * 86400000) with ONE_MONTH.
  fold age in S, O, F.
  repeat split; intros H.
  - rewrite (S H). subst fatigue. ring.
  - rewrite (O H). subst fatigue. ring.
  - rewrite (F (or_introl H)). subst fatigue. ring.
Qed.

Lemma resurface_score_by_age_witness :
  (App.resurfaceScore (2000 + 8 * 86400000) Sample.packing == 0.9 + 0.3 - 0)%Q.
Proof.
  assert (NZ : forall v, importance (aiMetadata Sample.packing) = Some v
                         -> ~ (v == 0)%Q).
  { intros v E. inversion E; subst v. intros Z0. vm_compute in Z0. discriminate. }
  destruct (resurface_score_by_age (2000 + 8 * 86400000) Sample.packing NZ)
    as [S _].
  rewrite S; [reflexivity|]. simpl. lia.
Defined.

(** C2 as stated fails at the boundary: a memory of importance 0.5, never
    resurfaced, whose age is exactly 7 days scores 0.5, not 0.5 + 0.3. *)
Lemma resurface_score_boundary_counterexample :
  let now := 1000 + 7 * 86400000 in
  importance (aiMetadata Sample.breathing) = None
  /\ resurfaceCount Sample.breathing = None
  /\ now - createdAt Sample.breathing = 7 * 86400000
  /\ (App.resurfaceScore now Sample.breathing == 0.5)%Q
  /\ ~ (App.resurfaceScore now Sample.breathing == 0.5 + 0.3)%Q.
Proof.
  repeat split. intros H. vm_compute in H. discriminate.
Qed.

(** At an age of exactly 30 days neither bonus applies, while a millisecond
    earlier the bonus is 0.3 and a millisecond later it is 0.2. *)
Lemma resurface_score_gap_at_one_month :
  let now := 1000 + 30 * 86400000 in
  (App.resurfaceScore (now - 1) Sample.breathing == 0.5 + 0.3)%Q
  /\ (App.resurfaceScore now Sample.breathing == 0.5)%Q
  /\ (App.resurfaceScore (now + 1) Sample.breathing == 0.5 + 0.2)%Q.
Proof. repeat split. Qed.

(** An importance of zero counts as missing. *)
Lemma resurface_score_zero_importance :
  (App.resurfaceScore 0
     (Sample.memory "z" "note" (Sample.meta "text" [] [] (Some 0%Q)) 0%Z) == 0.5)%Q.
Proof. reflexivity. Qed.

(** The score has no lower bound. *)
Lemma resurface_score_can_be_negative :
  (App.resurfaceScore 0
     {| id := "old"; type := note; content := "note"; imageData := None;
        aiMetadata := Sample.meta "text" [] [] None; embedding := [];
        createdAt := 0%Z; lastResurfaced := None; resurfaceCount := Some 9%Z |}
   < 0)%Q.
Proof. reflexivity. Qed.



(** With five slots and three memories, all three are shown, the one left
    longest first. *)
Lemma resurface_three_of_three :
  let old := Sample.memory "old" "a" (Sample.meta "s" [] [] (Some 0.9%Q)) 0 in
  let mid := Sample.memory "mid" "b" (Sample.meta "s" [] [] (Some 0.9%Q)) (30 * 86400000) in
  let new := Sample.memory "new" "c" (Sample.meta "s" [] [] (Some 0.9%Q)) (38 * 86400000) in
  let now := 40 * 86400000 in
  option_map (map id)
    (App.shown (App.handleResurface Sample.allWrites now [new; old; mid] []))
  = Some ["mid"; "old"; "new"]
  /\ map (fun u => (id u, lastResurfaced u, resurfaceCount u))
       (App.stored (App.handleResurface Sample.allWrites now [new; old; mid] []))
     = [ ("mid", Some now, Some 1); ("old", Some now, Some 1);
         ("new", Some now, Some 1) ]
  /\ map (fun u => (id u, lastResurfaced u, resurfaceCount u))
       (App.stored
          (App.handleResurface (Sample.refusing "old") now [new; old; mid] []))
     = [ ("mid", Some now, Some 1); ("new", Some now, Some 1) ].
Proof. repeat split. Qed.

End ResurfaceSpec.

Module FrameSpec.

Import JSFacts StoreFacts ResurfaceFacts.


Lemma chosen_in_corpus now corpus c :
  In c (App.chosen now corpus) -> In (fst c) corpus.
Proof.
  intros Hc.
  assert (I : In (fst c) (map fst (App.chosen now corpus))) by now apply in_map.
  rewrite chosen_memories in I. apply firstn_In in I.
  now apply sort_In in I.
Qed.



(** Linking a new memory to [m2] appends its id there and leaves [m1] as it
    was. *)
Lemma linking_example :
  let store := [Sample.breathing; Sample.packing] in
  fst (App.linkRelated Sample.allWrites "m3" ["m2"] store store)
  = [Sample.breathing; App.withRelated Sample.packing ["m3"]].
Proof. reflexivity. Qed.

(** Saving a new memory next to three stored ones: the two it is related
    to gain its id, the third is left alone, and the new memory is stored
    with the ids of the two.  When the store refuses the write to [b], the
    loop stops there: [a] is already linked and the new memory is not
    saved. *)
Lemma link_and_save_example :
  let a := Sample.embedded "a" [] [1; 0]%Q in
  let b := Sample.embedded "b" ["Code"] [0.6; 0.8]%Q in
  let e := Sample.embedded "e" [] [0; 1]%Q in
  let new := Sample.embedded "new" ["code"] [1; 0]%Q in
  App.linkAndSave Sample.unitSimilarity Sample.allWrites new [a; b; e] [a; b; e]
  = ([ App.withRelated a ["new"]; App.withRelated b ["new"]; e;
       App.withRelated new ["a"; "b"] ], true)
  /\ App.linkAndSave Sample.unitSimilarity (Sample.refusing "b") new
       [a; b; e] [a; b; e]
     = ([ App.withRelated a ["new"]; b; e ], false).
Proof. split; reflexivity. Qed.

End FrameSpec.

(** * Insight mining *)

Module InsightFacts.

Import JSFacts.

(** ** The frequency table *)












(** ** [Object.entries] and the ranking *)



Lemma StronglySorted_weaken {A} (R R' : A -> A -> Prop) l :
  (forall a b, R a b -> R' a b) -> StronglySorted R l -> StronglySorted R' l.
Proof.
  intros W. induction 1 as [|x l Hl IH Hx]; constructor; auto.
  rewrite Forall_forall in *. auto.
Qed.




(** ** The insights *)

Lemma patternInsight_shape memories e :
  Gemini.patternInsight memories e
  = if (2 <=? carriers (fst e) memories)%nat then [patternFor memories e] else [].
Proof.
  destruct e as [topic count]. unfold Gemini.patternInsight, carriers.
  rewrite length_map. reflexivity.
Qed.





End InsightFacts.

Module InsightSpec.

Import JSFacts InsightFacts.




(** Five Design memories of which one is also tagged Travel: the relevance
    is 5/5. *)
Lemma five_design_one_also_travel :
  map (fun i => (title i, relevance i))
    (patternInsights (Gemini.generateInsights 0 Sample.designOnlyCorpus))
  = [("Recurring Topic: Design", 1%Q)].
Proof. reflexivity. Qed.

End InsightSpec.

(** * Analysis defaults *)

Module AnalysisFacts.

Lemma clamp_cases q : Qmax 0 (Qmin 1 q) = clamp01 q.
Proof.
  unfold clamp01.
  destruct (Qle_bool q 0) eqn:L0.
  - apply Qle_bool_iff in L0.
    assert (M : Qmin 1 q = q).
    { unfold Qmin, GenericMinMax.gmin.
      destruct (1 ?= q)%Q eqn:C; try reflexivity.
      - apply Qeq_alt in C. lra.
      - apply Qlt_alt in C. lra. }
    rewrite M. unfold Qmax, GenericMinMax.gmax.
    destruct (0 ?= q)%Q eqn:C; try reflexivity.
    apply Qlt_alt in C. lra.
  - assert (P : (0 < q)%Q).
    { apply Qnot_le_lt. intros H. apply Qle_bool_iff in H. congruence. }
    destruct (Qle_bool 1 q) eqn:L1.
    + apply Qle_bool_iff in L1.
      assert (M : Qmin 1 q = 1%Q).
      { unfold Qmin, GenericMinMax.gmin.
        destruct (1 ?= q)%Q eqn:C; try reflexivity.
        apply Qgt_alt in C. lra. }
      rewrite M. reflexivity.
    + assert (U : (q < 1)%Q).
      { apply Qnot_le_lt. intros H. apply Qle_bool_iff in H. congruence. }
      assert (M : Qmin 1 q = q).
      { unfold Qmin, GenericMinMax.gmin.
        destruct (1 ?= q)%Q eqn:C; try reflexivity.
        - apply Qeq_alt in C. lra.
        - apply Qlt_alt in C. lra. }
      rewrite M. unfold Qmax, GenericMinMax.gmax.
      destruct (0 ?= q)%Q eqn:C; try reflexivity.
      * apply Qeq_alt in C. lra.
      * apply Qgt_alt in C. lra.
Qed.

Lemma clamp01_range q : (0 <= clamp01 q <= 1)%Q.
Proof.
  unfold clamp01.
  destruct (Qle_bool q 0) eqn:L0; [lra|].
  destruct (Qle_bool 1 q) eqn:L1; [lra|].
  split.
  - apply Qlt_le_weak, Qnot_le_lt. intros H. apply Qle_bool_iff in H. congruence.
  - apply Qlt_le_weak, Qnot_le_lt. intros H. apply Qle_bool_iff in H. congruence.
Qed.

Lemma orElse_truthy v d :
  Gemini.truthy d = true -> Gemini.truthy (Gemini.orElse v d) = true.
Proof.
  intros D. destruct v as [x|]; simpl; [|exact D].
  destruct (Gemini.truthy x) eqn:T; assumption.
Qed.

Lemma truthy_string v :
  Gemini.truthy v = true -> Gemini.isString v = true ->
  Gemini.nonEmptyString v = true.
Proof. destruct v; simpl; congruence. Qed.

Lemma arrayOrEmpty_isArray v : Gemini.isArray (Gemini.arrayOrEmpty v) = true.
Proof. destruct v as [[]|]; reflexivity. Qed.

Lemma clampImportance_range v :
  exists q, Gemini.clampImportance v = Gemini.JNumber q /\ (0 <= q <= 1)%Q.
Proof.
  destruct v as [[]|]; simpl; try (exists 0.5%Q; split; [reflexivity|lra]).
  eexists; split; [reflexivity|]. rewrite clamp_cases. apply clamp01_range.
Qed.

(** Every reply is answered by the fixed defaults or field by field. *)
Lemma analyzeContent_cases reply :
  Gemini.analyzeContent reply = Gemini.analysisFailed
  \/ Gemini.analyzeContent reply
     = {| Gemini.a_summary :=
            Gemini.orElse (sent reply "summary") (Gemini.JString "No summary available.");
          Gemini.a_topics := Gemini.arrayOrEmpty (sent reply "topics");
          Gemini.a_mood := Gemini.arrayOrEmpty (sent reply "mood");
          Gemini.a_colors := Gemini.arrayOrEmpty (sent reply "colors");
          Gemini.a_collection :=
            Gemini.orElse (sent reply "collection") (Gemini.JString "General");
          Gemini.a_importance := Gemini.clampImportance (sent reply "importance") |}.
Proof.
  destruct reply as [| | |[]]; simpl; auto.
Qed.

End AnalysisFacts.

Module AnalysisSpec.

Import AnalysisFacts.

(** C10, as amended.  For every reply of the provider, the object returned
    by [analyzeContent] has an importance that is a number in [0,1], topics,
    mood and colors that are arrays, and a summary and a collection that are
    truthy; the summary (the collection) is a non-empty string whenever the
    value the provider sent for it is a string, is falsy or is missing.
    When the reply parses to an object the defaults are applied field by
    field: a numeric importance is clamped into [0,1] and any other becomes
    0.5, an array is kept and anything else becomes the empty array, a
    truthy summary or collection is kept and any other becomes
    "No summary available." or "General". *)
Theorem analysis_defaults_field_by_field (reply : Gemini.Reply) :
  let a := Gemini.analyzeContent reply in
  (exists q, Gemini.a_importance a = Gemini.JNumber q /\ (0 <= q <= 1)%Q)
  /\ Gemini.isArray (Gemini.a_topics a) = true
  /\ Gemini.isArray (Gemini.a_mood a) = true
  /\ Gemini.isArray (Gemini.a_colors a) = true
  /\ Gemini.truthy (Gemini.a_summary a) = true
  /\ Gemini.truthy (Gemini.a_collection a) = true
  /\ ((forall v, sent reply "summary" = Some v -> Gemini.truthy v = true ->
                 Gemini.isString v = true) ->
      Gemini.nonEmptyString (Gemini.a_summary a) = true)
  /\ ((forall v, sent reply "collection" = Some v -> Gemini.truthy v = true ->
                 Gemini.isString v = true) ->
      Gemini.nonEmptyString (Gemini.a_collection a) = true)
  /\ (forall fields,
        reply = Gemini.Parsed (Gemini.JObject fields) ->
        let given k := Gemini.lookup k fields in
        Gemini.a_importance a
        = match given "importance" with
          | Some (Gemini.JNumber q) => Gemini.JNumber (clamp01 q)
          | _ => Gemini.JNumber 0.5
          end
        /\ Gemini.a_topics a
           = match given "topics" with
             | Some (Gemini.JArray l) => Gemini.JArray l
             | _ => Gemini.JArray []
             end
        /\ Gemini.a_mood a
           = match given "mood" with
             | Some (Gemini.JArray l) => Gemini.JArray l
             | _ => Gemini.JArray []
             end
        /\ Gemini.a_colors a
           = match given "colors" with
             | Some (Gemini.JArray l) => Gemini.JArray l
             | _ => Gemini.JArray []
             end
        /\ Gemini.a_summary a
           = match given "summary" with
             | Some v => if Gemini.truthy v then v
                         else Gemini.JString "No summary available."
             | None => Gemini.JString "No summary available."
             end
        /\ Gemini.a_collection a
           = match given "collection" with
             | Some v => if Gemini.truthy v then v else Gemini.JString "General"
             | None => Gemini.JString "General"
             end).
Proof.
  intros a.
  assert (Str : forall k d,
             Gemini.nonEmptyString d = true ->
             (forall v, sent reply k = Some v -> Gemini.truthy v = true ->
                        Gemini.isString v = true) ->
             Gemini.nonEmptyString (Gemini.orElse (sent reply k) d) = true).
  { intros k d D H. unfold Gemini.orElse.
    destruct (sent reply k) as [v|]; [|exact D].
    destruct (Gemini.truthy v) eqn:T; [|exact D].
    apply truthy_string; auto. }
  split; [|split; [|split; [|split; [|split; [|split; [|split; [|split]]]]]]].
  - subst a. destruct (analyzeContent_cases reply) as [-> | ->]; simpl.
    + exists 0.5%Q. split; [reflexivity|lra].
    + apply clampImportance_range.
  - subst a. destruct (analyzeContent_cases reply) as [-> | ->]; simpl;
      [reflexivity|apply arrayOrEmpty_isArray].
  - subst a. destruct (analyzeContent_cases reply) as [-> | ->]; simpl;
      [reflexivity|apply arrayOrEmpty_isArray].
  - subst a. destruct (analyzeContent_cases reply) as [-> | ->]; simpl;
      [reflexivity|apply arrayOrEmpty_isArray].
  - subst a. destruct (analyzeContent_cases reply) as [-> | ->]; simpl;
      [reflexivity|now apply orElse_truthy].
  - subst a. destruct (analyzeContent_cases reply) as [-> | ->]; simpl;
      [reflexivity|now apply orElse_truthy].
  - intros H. subst a.
    destruct (analyzeContent_cases reply) as [-> | ->]; simpl;
      [reflexivity|now apply Str].
  - intros H. subst a.
    destruct (analyzeContent_cases reply) as [-> | ->]; simpl;
      [reflexivity|now apply Str].
  - intros fields -> given. subst a given. simpl.
    split; [|split; [|split; [|split; [|split; reflexivity]]]].
    + destruct (Gemini.lookup "importance" fields) as [[]|]; simpl;
        try reflexivity.
      now rewrite clamp_cases.
    + destruct (Gemini.lookup "topics" fields) as [[]|]; reflexivity.
    + destruct (Gemini.lookup "mood" fields) as [[]|]; reflexivity.
    + destruct (Gemini.lookup "colors" fields) as [[]|]; reflexivity.
Qed.

Lemma analysis_defaults_field_by_field_witness :
  Gemini.nonEmptyString
    (Gemini.a_summary (Gemini.analyzeContent Sample.wellFormed)) = true
  /\ Gemini.a_importance (Gemini.analyzeContent Sample.wellFormed)
     = Gemini.JNumber 1.
Proof.
  destruct (analysis_defaults_field_by_field Sample.wellFormed)
    as [_ [_ [_ [_ [_ [_ [S [_ F]]]]]]]].
  split.
  - apply S. intros v E T. vm_compute in E. inversion E; subst v. reflexivity.
  - destruct (F _ eq_refl) as [I _]. exact I.
Defined.

(** C10 as stated fails on a reply whose summary is a number: the number is
    truthy, so it is kept, and the summary of the result is not a string. *)
Lemma numeric_summary_counterexample :
  Gemini.a_summary (Gemini.analyzeContent Sample.numericSummary)
  = Gemini.JNumber 7
  /\ Gemini.isString
       (Gemini.a_summary (Gemini.analyzeContent Sample.numericSummary)) = false
  /\ Gemini.a_collection (Gemini.analyzeContent Sample.numericSummary)
     = Gemini.JString "General".
Proof. repeat split. Qed.

End AnalysisSpec.

(** * The store: lookups, deletions and listings *)

Module StoreSpec.

Import JSFacts StoreFacts InsightFacts.

Lemma put_In m s x :
  NoDup (map id s) ->
  In x (Db.put m s) <-> x = m \/ (In x s /\ id x <> id m).
Proof.
  induction s as [|y s IH]; simpl; intros ND.
  - intuition congruence.
  - inversion ND as [|? ? Hy Hs]; subst.
    destruct (String.eqb_spec (id y) (id m)) as [E|N]; simpl.
    + split.
      * intros [<-|I]; [now left|]. right. split; [now right|].
        intros Ex. apply Hy. rewrite E, <- Ex. now apply in_map.
      * intros [->|[[->|I] Nx]]; [now left|congruence|now right].
    + rewrite IH by exact Hs. split.
      * intros [<-|[->|[I Nx]]]; auto.
      * intros [->|[[<-|I] Nx]]; auto.
Qed.

Lemma put_keys m s k :
  In k (map id (Db.put m s)) <-> k = id m \/ In k (map id s).
Proof.
  induction s as [|y s IH]; simpl.
  - intuition congruence.
  - destruct (String.eqb_spec (id y) (id m)) as [E|N]; simpl.
    + rewrite E. intuition congruence.
    + rewrite IH. intuition congruence.
Qed.

Lemma put_NoDup m s : NoDup (map id s) -> NoDup (map id (Db.put m s)).
Proof.
  induction s as [|y s IH]; simpl; intros ND.
  - repeat constructor. intros [].
  - inversion ND as [|? ? Hy Hs]; subst.
    destruct (String.eqb_spec (id y) (id m)) as [E|N]; simpl.
    + constructor; [now rewrite <- E|exact Hs].
    + constructor; [|now apply IH].
      rewrite put_keys. intros [Ey|I]; [congruence|contradiction].
Qed.

(** X1.  A write the store accepts can be read back under its key, leaves
    what is stored under every other key as it was, and never makes the
    store hold two records under one key; a write the store refuses is
    reported by a rejection. *)
Theorem save_then_get (accepts : MemoryItem -> bool) (m : MemoryItem)
        (s : Db.Store) :
  match Db.saveMemory accepts m s with
  | Some s' =>
      accepts m = true
      /\ Db.get (id m) s' = Some m
      /\ (forall k, k <> id m -> Db.get k s' = Db.get k s)
      /\ (NoDup (map id s) -> NoDup (map id s'))
  | None => accepts m = false
  end.
Proof.
  unfold Db.saveMemory. destruct (accepts m); [|reflexivity].
  split; [reflexivity|]. split; [|split].
  - rewrite get_put. now rewrite String.eqb_refl.
  - intros k N. rewrite get_put.
    destruct (String.eqb_spec (id m) k); congruence.
  - apply put_NoDup.
Qed.

Lemma save_then_get_witness :
  exists s', Db.saveMemory Sample.allWrites Sample.packing [Sample.breathing] = Some s'
             /\ Db.get "m2" s' = Some Sample.packing
             /\ NoDup (map id s').
Proof.
  pose proof (save_then_get Sample.allWrites Sample.packing [Sample.breathing]) as H.
  destruct (Db.saveMemory Sample.allWrites Sample.packing [Sample.breathing])
    as [s'|]; [|discriminate H].
  destruct H as [_ [G [_ ND]]].
  exists s'. split; [reflexivity|]. split; [exact G|].
  apply ND. repeat constructor. intros [].
Defined.

Lemma get_delete k k' s :
  Db.get k' (Db.delete k s)
  = if String.eqb k k' then None else Db.get k' s.
Proof.
  unfold Db.get, Db.delete.
  induction s as [|x s IH]; simpl.
  - now destruct (String.eqb k k').
  - destruct (String.eqb_spec (id x) k) as [E|N]; simpl.
    + rewrite IH. destruct (String.eqb_spec k k') as [E'|N']; [reflexivity|].
      destruct (String.eqb_spec (id x) k'); congruence.
    + destruct (String.eqb_spec (id x) k') as [E'|N']; [|exact IH].
      destruct (String.eqb_spec k k'); congruence.
Qed.

Lemma delete_absent k s : Db.get k s = None -> Db.delete k s = s.
Proof.
  unfold Db.get, Db.delete.
  induction s as [|x s IH]; simpl; [reflexivity|].
  destruct (String.eqb (id x) k); simpl; [discriminate|].
  intros H. now rewrite IH.
Qed.

(** X2.  Deleting a key leaves nothing under it and leaves every other key
    as it was; deleting a key that is not stored changes nothing; and
    deleting the key of a record just put into a store that did not hold
    that key gives the store back. *)
Theorem delete_then_get (k : string) (m : MemoryItem) (s : Db.Store) :
  Db.get k (Db.delete k s) = None
  /\ (forall k', k' <> k -> Db.get k' (Db.delete k s) = Db.get k' s)
  /\ (Db.get k s = None -> Db.delete k s = s)
  /\ (Db.get (id m) s = None -> Db.delete (id m) (Db.put m s) = s).
Proof.
  split; [|split; [|split]].
  - rewrite get_delete. now rewrite String.eqb_refl.
  - intros k' N. rewrite get_delete.
    destruct (String.eqb_spec k k'); congruence.
  - apply delete_absent.
  - unfold Db.get, Db.delete.
    induction s as [|x s IH]; simpl.
    + now rewrite String.eqb_refl.
    + destruct (String.eqb (id x) (id m)) eqn:E; simpl; [discriminate|].
      intros H. rewrite E. simpl. now rewrite IH.
Qed.

Lemma delete_then_get_witness :
  Db.delete "m2" (Db.put Sample.packing [Sample.breathing]) = [Sample.breathing].
Proof.
  exact (proj2 (proj2 (proj2 (delete_then_get "m2" Sample.packing
                                [Sample.breathing]))) eq_refl).
Defined.

(** ** Stable sorting *)

Section Stable.
Context {A : Type}.
Variable cmp : A -> A -> Q.
Variable le : A -> A -> Prop.
Variable R : A -> A -> Prop.
Hypothesis after : forall a b, (0 < cmp a b)%Q -> le b a /\ ~ le a b.
Hypothesis before : forall a b, (cmp a b <= 0)%Q -> le a b.
Hypothesis le_trans : forall a b c, le a b -> le b c -> le a c.

Lemma insertBy_stable x l :
  Forall (R x) l ->
  StronglySorted (fun a b => le a b /\ (le b a -> R a b)) l ->
  StronglySorted (fun a b => le a b /\ (le b a -> R a b))
    (JS.insertBy cmp x l).
Proof.
  intros Rx S. induction S as [|y l Sl IH Hy]; simpl.
  - repeat constructor.
  - inversion Rx as [|? ? Rxy Rxl]; subst.
    destruct (JS.Qltb 0 (cmp x y)) eqn:E.
    + apply Qltb_lt in E. destruct (after E) as [L N].
      constructor; [now apply IH|].
      apply Forall_forall. intros z Hz.
      apply (Permutation_in _ (insertBy_perm cmp x l)) in Hz.
      destruct Hz as [<-|Hz]; [split; [exact L|contradiction]|].
      rewrite Forall_forall in Hy. now apply Hy.
    + apply Qltb_ge in E. apply before in E.
      constructor; [now constructor|].
      constructor; [now split|].
      rewrite Forall_forall in *. intros z Hz.
      destruct (Hy z Hz) as [L _].
      split; [now apply le_trans with y|]. intros _. now apply Rxl.
Qed.

(** Sorting puts the list in order, and leaves elements that the order
    does not tell apart in the order [R] they came in. *)
Lemma sort_stable l :
  StronglySorted R l ->
  StronglySorted (fun a b => le a b /\ (le b a -> R a b)) (JS.sort cmp l).
Proof.
  induction 1 as [|x l Sl IH Hx]; simpl; [constructor|].
  apply insertBy_stable; [|exact IH].
  rewrite Forall_forall in *. intros z Hz. apply Hx.
  exact (proj1 (sort_In cmp z l) Hz).
Qed.
End Stable.

Lemma keyOrder_after a b :
  (0 < Db.keyOrder a b)%Q ->
  String.compare b a <> Gt /\ ~ String.compare a b <> Gt.
Proof.
  unfold Db.keyOrder. rewrite (String.compare_antisym b a).
  destruct (String.compare a b); simpl; intros H;
    try (compute in H; discriminate H).
  split; [discriminate|]. intros N. now apply N.
Qed.

Lemma keyOrder_before a b :
  (Db.keyOrder a b <= 0)%Q -> String.compare a b <> Gt.
Proof.
  unfold Db.keyOrder.
  destruct (String.compare a b); intros H; try discriminate.
  exfalso. compute in H. now apply H.
Qed.

Lemma compare_not_Gt_trans a b c :
  String.compare a b <> Gt -> String.compare b c <> Gt ->
  String.compare a c <> Gt.
Proof.
  intros H1 H2.
  destruct (String.compare a b) eqn:E1; [|clear H1|congruence].
  - apply String.compare_eq_iff in E1. now subst.
  - destruct (String.compare b c) eqn:E2; [|clear H2|congruence].
    + apply String.compare_eq_iff in E2. subst. now rewrite E1.
    + apply OrderedTypeEx.String_as_OT.cmp_lt in E1, E2.
      pose proof (OrderedTypeEx.String_as_OT.lt_trans _ _ _ E1 E2) as T.
      apply OrderedTypeEx.String_as_OT.cmp_lt in T.
      change (String.compare a c = Lt) in T. now rewrite T.
Qed.

(** [store.getAll()] comes by increasing key. *)
Lemma getAll_sorted s :
  StronglySorted (fun a b => String.compare (id a) (id b) <> Gt) (Db.getAll s).
Proof.
  unfold Db.getAll.
  pose proof (@sort_stable MemoryItem
                (fun a b => Db.keyOrder (id a) (id b))
                (fun a b => String.compare (id a) (id b) <> Gt)
                (fun _ _ => True)) as S.
  eapply StronglySorted_weaken; [|apply S].
  - intros a b [L _]. exact L.
  - intros a b. apply keyOrder_after.
  - intros a b. apply keyOrder_before.
  - intros a b c. apply compare_not_Gt_trans.
  - induction s; constructor; auto. now apply Forall_forall.
Qed.

(** Newest first, and what was created at the same time stays in the order
    [R] it came in. *)
Lemma newestFirst_stable (R : MemoryItem -> MemoryItem -> Prop) ms :
  StronglySorted R ms ->
  StronglySorted
    (fun a b => createdAt b <= createdAt a
                /\ (createdAt a = createdAt b -> R a b))
    (Db.newestFirst ms).
Proof.
  intros S. unfold Db.newestFirst.
  pose proof (@sort_stable MemoryItem
                (fun a b => inject_Z (createdAt b) - inject_Z (createdAt a))%Q
                (fun a b => createdAt b <= createdAt a) R) as St.
  eapply StronglySorted_weaken; [|apply St; [| | |exact S]].
  - intros a b [L K]. split; [exact L|]. intros E. apply K. lia.
  - intros a b H.
    assert (inject_Z (createdAt a) < inject_Z (createdAt b))%Q as H' by lra.
    rewrite <- Zlt_Qlt in H'. lia.
  - intros a b H.
    assert (inject_Z (createdAt b) <= inject_Z (createdAt a))%Q as H' by lra.
    now rewrite <- Zle_Qle in H'.
  - intros a b c. lia.
Qed.

Lemma getAllByCreatedAt_sorted s :
  StronglySorted
    (fun a b => createdAt a <= createdAt b
                /\ (createdAt a = createdAt b
                    -> String.compare (id a) (id b) <> Gt))
    (Db.getAllByCreatedAt s).
Proof.
  unfold Db.getAllByCreatedAt.
  pose proof (@sort_stable MemoryItem
                (fun a b => inject_Z (createdAt a) - inject_Z (createdAt b))%Q
                (fun a b => createdAt a <= createdAt b)
                (fun a b => String.compare (id a) (id b) <> Gt)) as St.
  eapply StronglySorted_weaken; [|apply St; [| | |apply getAll_sorted]].
  - intros a b [L K]. split; [exact L|]. intros E. apply K. lia.
  - intros a b H.
    assert (inject_Z (createdAt b) < inject_Z (createdAt a))%Q as H' by lra.
    rewrite <- Zlt_Qlt in H'. lia.
  - intros a b H.
    assert (inject_Z (createdAt a) <= inject_Z (createdAt b))%Q as H' by lra.
    now rewrite <- Zle_Qle in H'.
  - intros a b c. lia.
Qed.

Lemma newestFirst_sorted ms :
  StronglySorted (fun a b => createdAt b <= createdAt a) (Db.newestFirst ms).
Proof.
  apply StronglySorted_weaken
    with (R := fun a b => (inject_Z (createdAt b) <= inject_Z (createdAt a))%Q).
  - intros a b. now rewrite <- Zle_Qle.
  - apply (sort_descending (fun m => inject_Z (createdAt m))).
Qed.

Lemma newestFirst_In ms m : In m (Db.newestFirst ms) <-> In m ms.
Proof. apply sort_In. Qed.

Lemma getAll_In s m : In m (Db.getAll s) <-> In m s.
Proof. apply sort_In. Qed.

(** X3.  [getAllMemories] lists every stored memory, each as many times as
    it is stored, newest first, and memories created in the same
    millisecond by increasing id. *)
Theorem getAllMemories_newest_first (s : Db.Store) :
  Permutation (Db.getAllMemories s) s
  /\ StronglySorted
       (fun a b => createdAt b <= createdAt a
                   /\ (createdAt a = createdAt b
                       -> String.compare (id a) (id b) <> Gt))
       (Db.getAllMemories s).
Proof.
  split.
  - unfold Db.getAllMemories, Db.newestFirst, Db.getAllByCreatedAt, Db.getAll.
    now rewrite !sort_perm.
  - unfold Db.getAllMemories.
    eapply StronglySorted_weaken;
      [|apply newestFirst_stable, getAllByCreatedAt_sorted].
    intros a b [L K]. split; [exact L|]. intros E. now apply K.
Qed.

(** X4.  [getMemoriesByCollection] lists, newest first and by increasing id
    within one millisecond, exactly the stored memories whose collection is
    the given name, a memory whose collection is missing or empty counting
    under General; so every stored memory is listed under one name and one
    only. *)
Theorem getMemoriesByCollection_members (name : string) (s : Db.Store) :
  (forall m, In m (Db.getMemoriesByCollection name s)
             <-> In m s /\ App.collectionName m = name)
  /\ StronglySorted
       (fun a b => createdAt b <= createdAt a
                   /\ (createdAt a = createdAt b
                       -> String.compare (id a) (id b) <> Gt))
       (Db.getMemoriesByCollection name s)
  /\ (forall m, In m s ->
        forall name', In m (Db.getMemoriesByCollection name' s)
                      <-> name' = App.collectionName m)
  /\ (forall m, In m s -> collection (aiMetadata m) = None ->
        In m (Db.getMemoriesByCollection "General" s)).
Proof.
  assert (M : forall n m, In m (Db.getMemoriesByCollection n s)
                          <-> In m s /\ App.collectionName m = n).
  { intros n m. unfold Db.getMemoriesByCollection.
    rewrite newestFirst_In, filter_In, getAll_In, String.eqb_eq. reflexivity. }
  split; [apply M|]. split; [|split].
  - unfold Db.getMemoriesByCollection.
    apply newestFirst_stable, StronglySorted_filter, getAll_sorted.
  - intros m I name'. rewrite M. intuition congruence.
  - intros m I E. apply M. split; [exact I|].
    unfold App.collectionName. now rewrite E.
Qed.

Lemma getMemoriesByCollection_members_witness :
  In Sample.breathing
     (Db.getMemoriesByCollection "General" [Sample.breathing; Sample.workNote]).
Proof.
  apply (proj2 (proj2 (proj2 (getMemoriesByCollection_members
                                "General" [Sample.breathing; Sample.workNote])))).
  - now left.
  - reflexivity.
Defined.

End StoreSpec.

(** * The handlers of the component and of the detail view *)

Module HandlerSpec.

Import JSFacts StoreFacts StoreSpec StringFacts.

(** X5.  [handleUpdate] keeps the corpus in step with the store: if every
    memory of the corpus is what the store holds under its id before, so it
    is after, whether the write is accepted or refused.  It never drops,
    adds or reorders a memory of the corpus, and once the write is accepted
    the store answers the edited memory under its id and every memory of
    the corpus with that id is the edited one. *)
Theorem handleUpdate_keeps_in_step (accepts : MemoryItem -> bool)
        (updatedItem : MemoryItem) (st : App.State) (store : Db.Store) :
  snapshotOf store (App.memories st) ->
  let after := App.handleUpdate accepts updatedItem st store in
  snapshotOf (snd after) (App.memories (fst after))
  /\ map id (App.memories (fst after)) = map id (App.memories st)
  /\ (accepts updatedItem = true ->
      Db.get (id updatedItem) (snd after) = Some updatedItem
      /\ forall m, In m (App.memories (fst after)) ->
                   id m = id updatedItem -> m = updatedItem)
  /\ (accepts updatedItem = false -> after = (st, store)).
Proof.
  intros Snap after. subst after. unfold App.handleUpdate, Db.saveMemory.
  destruct (accepts updatedItem); simpl.
  - split; [|split; [|split]].
    + intros m I. apply in_map_iff in I. destruct I as [m0 [E I]].
      rewrite get_put.
      destruct (String.eqb_spec (id m0) (id updatedItem)) as [Eq|N].
      * subst m. now rewrite String.eqb_refl.
      * subst m. destruct (String.eqb_spec (id updatedItem) (id m0));
          [congruence|now apply Snap].
    + rewrite map_map. apply map_ext_in. intros m _.
      destruct (String.eqb_spec (id m) (id updatedItem)); congruence.
    + intros _. split.
      * rewrite get_put. now rewrite String.eqb_refl.
      * intros m I E. apply in_map_iff in I. destruct I as [m0 [E0 I]].
        destruct (String.eqb_spec (id m0) (id updatedItem)); congruence.
    + discriminate.
  - split; [exact Snap|]. split; [reflexivity|]. split; [discriminate|].
    reflexivity.
Qed.

Lemma handleUpdate_keeps_in_step_witness :
  let st := {| App.memories := [Sample.breathing; Sample.packing];
               App.searchResults := None;
               App.selectedMemory := Some Sample.packing |} in
  let edited := Detail.handleSave Sample.packing "Lighter this time" in
  let after := App.handleUpdate Sample.allWrites edited st
                 [Sample.breathing; Sample.packing] in
  snapshotOf (snd after) (App.memories (fst after))
  /\ map id (App.memories (fst after)) = ["m1"; "m2"].
Proof.
  intros st edited after.
  assert (Snap : snapshotOf [Sample.breathing; Sample.packing] (App.memories st)).
  { intros m I. simpl in I. destruct I as [<-|[<-|[]]]; reflexivity. }
  destruct (handleUpdate_keeps_in_step Sample.allWrites edited st Snap)
    as [S [K _]].
  split; [exact S|exact K].
Defined.

Lemma withoutId_items k r m :
  In m (resultItems (App.withoutId k r)) <-> In m (resultItems r) /\ id m <> k.
Proof.
  destruct r as [ms|rs]; simpl.
  - rewrite filter_In, negb_true_iff, String.eqb_neq. reflexivity.
  - rewrite !in_map_iff. split.
    + intros [x [<- I]]. apply filter_In in I. destruct I as [I N].
      apply negb_true_iff, String.eqb_neq in N. split; [now exists x|exact N].
    + intros [[x [<- I]] N]. exists x. split; [reflexivity|].
      apply filter_In. split; [exact I|].
      now apply negb_true_iff, String.eqb_neq.
Qed.

(** X6.  Once the store has accepted the deletion, [handleDelete] leaves no
    trace of the id: nothing is stored under it, no memory of the corpus,
    no displayed memory and no selected memory carries it; the memories
    with other ids are all still in the corpus and on display, and the
    corpus is still in step with the store.  A refused deletion changes
    nothing. *)
Theorem handleDelete_leaves_no_trace (allows : string -> bool) (k : string)
        (st : App.State) (store : Db.Store) :
  snapshotOf store (App.memories st) ->
  let after := App.handleDelete allows k st store in
  snapshotOf (snd after) (App.memories (fst after))
  /\ (allows k = true ->
      Db.get k (snd after) = None
      /\ (forall m, In m (App.memories (fst after))
                    <-> In m (App.memories st) /\ id m <> k)
      /\ (forall m, In m (App.displayMemories (fst after))
                    <-> In m (App.displayMemories st) /\ id m <> k)
      /\ (forall m, App.selectedMemory (fst after) = Some m
                    <-> App.selectedMemory st = Some m /\ id m <> k))
  /\ (allows k = false -> after = (st, store)).
Proof.
  intros Snap after. subst after. unfold App.handleDelete, Db.deleteMemory.
  destruct (allows k); simpl.
  - assert (M : forall m,
               In m (filter (fun m0 => negb (String.eqb (id m0) k)) (App.memories st))
               <-> In m (App.memories st) /\ id m <> k).
    { intros m. rewrite filter_In, negb_true_iff, String.eqb_neq. reflexivity. }
    split; [|split; [|discriminate]].
    + intros m I. apply M in I. destruct I as [I N].
      rewrite get_delete. destruct (String.eqb_spec k (id m)); [congruence|].
      now apply Snap.
    + intros _. split; [|split; [exact M|split]].
      * rewrite get_delete. now rewrite String.eqb_refl.
      * intros m. unfold App.displayMemories. simpl.
        destruct (App.searchResults st) as [r|]; simpl;
          [apply withoutId_items|apply M].
      * intros m. unfold App.selectedIs.
        destruct (App.selectedMemory st) as [sel|]; simpl.
        -- destruct (String.eqb_spec (id sel) k) as [E|N]; split.
           ++ discriminate.
           ++ intros [H N']. inversion H; subst. congruence.
           ++ intros H. inversion H; subst. now split.
           ++ intros [H _]. exact H.
        -- split; [discriminate|intros [H _]; discriminate].
  - split; [exact Snap|]. split; [discriminate|reflexivity].
Qed.

Lemma handleDelete_leaves_no_trace_witness :
  let st := {| App.memories := [Sample.breathing; Sample.packing];
               App.searchResults := Some (Plain [Sample.packing]);
               App.selectedMemory := Some Sample.packing |} in
  let after := App.handleDelete (fun _ => true) "m2" st
                 [Sample.breathing; Sample.packing] in
  Db.get "m2" (snd after) = None
  /\ snapshotOf (snd after) (App.memories (fst after)).
Proof.
  intros st after.
  assert (Snap : snapshotOf [Sample.breathing; Sample.packing] (App.memories st)).
  { intros m I. simpl in I. destruct I as [<-|[<-|[]]]; reflexivity. }
  destruct (handleDelete_leaves_no_trace (fun _ => true) "m2" st Snap)
    as [S [D _]].
  split; [exact (proj1 (D eq_refl))|exact S].
Defined.

End HandlerSpec.

Module DetailSpec.

Import StringFacts.

Lemma withTopics_same item :
  Detail.withTopics item (topics (aiMetadata item)) = item.
Proof. destruct item as [? ? ? ? [] ? ? ? ?]. reflexivity. Qed.

Lemma filter_not_in (topic : string) ts :
  ~ In topic ts ->
  filter (fun t => negb (String.eqb t topic)) ts = ts.
Proof.
  induction ts as [|t ts IH]; simpl; intros N; [reflexivity|].
  destruct (String.eqb_spec t topic) as [E|D]; simpl.
  - exfalso. apply N. now left.
  - rewrite IH; [reflexivity|]. intros I. apply N. now right.
Qed.




(** X8.  [removeTopic] passes on the item without any occurrence of the
    topic (compared exactly, case included) and with its other topics in
    their order; it gives the item itself when the topic was not there,
    and it keeps topics without duplicates so.  It touches no other field
    (putting the old topics back gives the item), and the summary edit
    touches nothing but the summary. *)
Theorem removeTopic_removes_all (item : MemoryItem) (topic : string) :
  let item' := Detail.removeTopic item topic in
  ~ In topic (topics (aiMetadata item'))
  /\ (forall t, t <> topic ->
        count_occ string_dec (topics (aiMetadata item')) t
        = count_occ string_dec (topics (aiMetadata item)) t)
  /\ (~ In topic (topics (aiMetadata item)) -> item' = item)
  /\ (NoDup (topics (aiMetadata item)) -> NoDup (topics (aiMetadata item')))
  /\ Detail.withTopics item' (topics (aiMetadata item)) = item
  /\ (forall s, topics (aiMetadata (Detail.handleSave item s))
                = topics (aiMetadata item)
                /\ Detail.handleSave (Detail.handleSave item s)
                     (summary (aiMetadata item)) = item).
Proof.
  intros item'. subst item'. unfold Detail.removeTopic. simpl.
  split; [|split; [|split; [|split; [|split]]]].
  - intros I. apply filter_In in I. destruct I as [_ N].
    now rewrite String.eqb_refl in N.
  - intros t N. induction (topics (aiMetadata item)) as [|x ts IH]; simpl;
      [reflexivity|].
    destruct (String.eqb_spec x topic) as [E|D]; simpl.
    + destruct (string_dec x t); [congruence|exact IH].
    + destruct (string_dec x t); now rewrite IH.
  - intros N. rewrite filter_not_in by exact N. apply withTopics_same.
  - apply NoDup_filter.
  - destruct item as [? ? ? ? [] ? ? ? ?]. reflexivity.
  - intros s. split; [reflexivity|].
    destruct item as [? ? ? ? [] ? ? ? ?]. reflexivity.
Qed.

Lemma removeTopic_removes_all_witness :
  Detail.removeTopic Sample.packing "Health" = Sample.packing.
Proof.
  apply (proj1 (proj2 (proj2 (removeTopic_removes_all Sample.packing "Health")))).
  intros [E|[]]. discriminate E.
Defined.

End DetailSpec.

(** * Collections *)

Module CollectionFacts.

Import JSFacts.

(** ** [Array.from(new Set(xs))] *)

Lemma existsb_eqb x seen : existsb (String.eqb x) seen = true <-> In x seen.
Proof.
  rewrite existsb_exists. split.
  - intros [y [I E]]. apply String.eqb_eq in E. now subst.
  - intros I. exists x. split; [exact I|apply String.eqb_refl].
Qed.

Lemma uniqFrom_In seen xs x :
  In x (JS.uniqFrom seen xs) <-> In x xs /\ ~ In x seen.
Proof.
  revert seen; induction xs as [|y xs IH]; intros seen; simpl; [tauto|].
  destruct (existsb (String.eqb y) seen) eqn:E.
  - apply existsb_eqb in E. rewrite IH. intuition congruence.
  - assert (N : ~ In y seen) by (rewrite <- existsb_eqb; congruence).
    simpl. rewrite IH. simpl.
    destruct (string_dec y x) as [->|D]; [tauto|]. intuition congruence.
Qed.

Lemma uniqFrom_NoDup seen xs : NoDup (JS.uniqFrom seen xs).
Proof.
  revert seen; induction xs as [|y xs IH]; intros seen; simpl; [constructor|].
  destruct (existsb (String.eqb y) seen); [apply IH|].
  constructor; [|apply IH].
  rewrite uniqFrom_In. simpl. tauto.
Qed.

Lemma uniqFrom_fresh seen xs :
  NoDup xs -> (forall x, In x xs -> ~ In x seen) ->
  JS.uniqFrom seen xs = xs.
Proof.
  revert seen; induction xs as [|y xs IH]; intros seen ND F; simpl;
    [reflexivity|].
  inversion ND as [|? ? Hy Hxs]; subst.
  destruct (existsb (String.eqb y) seen) eqn:E.
  - apply existsb_eqb in E. exfalso. apply (F y); [now left|exact E].
  - f_equal. apply IH; [exact Hxs|].
    intros x I [<-|S]; [contradiction|]. apply (F x); [now right|exact S].
Qed.

Lemma uniqFrom_app seen xs ys :
  JS.uniqFrom seen (xs ++ ys)
  = JS.uniqFrom seen xs ++ JS.uniqFrom (rev (JS.uniqFrom seen xs) ++ seen) ys.
Proof.
  revert seen; induction xs as [|x xs IH]; intros seen; simpl; [reflexivity|].
  destruct (existsb (String.eqb x) seen); [apply IH|].
  simpl. rewrite IH. f_equal. f_equal. now rewrite <- app_assoc.
Qed.

(** The set keeps every value once, at the place it first came; values
    that were already distinct stay as they are, in front of what a second
    array adds. *)
Lemma uniq_spec xs :
  NoDup (JS.uniq xs)
  /\ (forall x, In x (JS.uniq xs) <-> In x xs)
  /\ (NoDup xs -> JS.uniq xs = xs)
  /\ (forall ys, NoDup xs -> exists extra, JS.uniq (xs ++ ys) = xs ++ extra).
Proof.
  unfold JS.uniq. split; [apply uniqFrom_NoDup|]. split; [|split].
  - intros x. rewrite uniqFrom_In. simpl. tauto.
  - intros ND. apply uniqFrom_fresh; [exact ND|auto].
  - intros ys ND. rewrite uniqFrom_app.
    rewrite (@uniqFrom_fresh [] xs ND) by auto. eexists. reflexivity.
Qed.

(** ** The map from names to ids *)

Lemma pushTo_keys name i map k :
  In k (List.map fst (App.pushTo name i map)) <-> k = name \/ In k (List.map fst map).
Proof.
  induction map as [|[n ids] map IH]; simpl.
  - intuition congruence.
  - destruct (String.eqb_spec n name) as [->|N]; simpl.
    + intuition congruence.
    + rewrite IH. intuition congruence.
Qed.

Lemma pushTo_NoDup name i map :
  NoDup (List.map fst map) -> NoDup (List.map fst (App.pushTo name i map)).
Proof.
  induction map as [|[n ids] map IH]; simpl; intros H.
  - repeat constructor. intros [].
  - inversion H as [|? ? Hn Hm]; subst.
    destruct (String.eqb_spec n name) as [->|N]; simpl.
    + now constructor.
    + constructor; [|now apply IH].
      rewrite pushTo_keys. intros [->|I]; auto.
Qed.

Lemma pushTo_nonempty name i map :
  Forall (fun e => snd e <> []) map ->
  Forall (fun e => snd e <> []) (App.pushTo name i map).
Proof.
  induction map as [|[n ids] map IH]; simpl; intros H.
  - repeat constructor. discriminate.
  - inversion H; subst.
    destruct (String.eqb n name); constructor; simpl in *; auto.
    now destruct ids.
Qed.

Lemma idsOf_pushTo name i map n :
  idsOf (App.pushTo name i map) n
  = idsOf map n ++ (if String.eqb name n then [i] else []).
Proof.
  unfold idsOf.
  induction map as [|[k ids] map IH]; simpl.
  - destruct (String.eqb name n); reflexivity.
  - destruct (String.eqb_spec k name) as [->|N]; simpl.
    + destruct (String.eqb name n); simpl; [reflexivity|now rewrite app_nil_r].
    + destruct (String.eqb_spec k n) as [->|N']; simpl.
      * destruct (String.eqb_spec name n); [congruence|now rewrite app_nil_r].
      * exact IH.
Qed.

Lemma idsOf_In map n ids :
  NoDup (List.map fst map) -> In (n, ids) map -> idsOf map n = ids.
Proof.
  unfold idsOf.
  induction map as [|[k c] map IH]; simpl; intros ND H; [destruct H|].
  inversion ND as [|? ? Hk Hm]; subst.
  destruct H as [E|H].
  - inversion E; subst. now rewrite String.eqb_refl.
  - destruct (String.eqb_spec k n) as [->|N].
    + exfalso. apply Hk. apply in_map_iff. now exists (n, ids).
    + now apply IH.
Qed.

Lemma In_idsOf map n :
  idsOf map n <> [] -> In (n, idsOf map n) map.
Proof.
  unfold idsOf.
  induction map as [|[k c] map IH]; simpl; intros H; [congruence|].
  destruct (String.eqb_spec k n) as [->|N]; simpl; [now left|].
  right. now apply IH.
Qed.

Lemma collectionMap_from memories : forall map,
  NoDup (List.map fst map) -> Forall (fun e => snd e <> []) map ->
  let map' :=
    fold_left (fun acc m => App.pushTo (App.collectionName m) (id m) acc)
      memories map in
  NoDup (List.map fst map')
  /\ Forall (fun e => snd e <> []) map'
  /\ forall n, idsOf map' n = idsOf map n ++ filedUnder n memories.
Proof.
  unfold filedUnder.
  induction memories as [|m ms IH]; simpl; intros map ND NE.
  - split; [exact ND|]. split; [exact NE|].
    intros n. now rewrite app_nil_r.
  - destruct (IH (App.pushTo (App.collectionName m) (id m) map)) as [N1 [N2 F]].
    { now apply pushTo_NoDup. }
    { now apply pushTo_nonempty. }
    split; [exact N1|]. split; [exact N2|].
    intros n. rewrite F, idsOf_pushTo, <- app_assoc. f_equal.
    destruct (String.eqb (App.collectionName m) n); reflexivity.
Qed.

(** ** The collections store *)

Lemma get_putCollection k c s :
  getCollection k (Db.putCollection c s)
  = if String.eqb (Coll.id c) k then Some c else getCollection k s.
Proof.
  unfold getCollection.
  induction s as [|x s IH]; simpl.
  - reflexivity.
  - destruct (String.eqb (Coll.id x) (Coll.id c)) eqn:E; simpl.
    + apply String.eqb_eq in E. rewrite E.
      now destruct (String.eqb (Coll.id c) k).
    + rewrite IH.
      destruct (String.eqb (Coll.id x) k) eqn:K; [|reflexivity].
      apply String.eqb_eq in K. subst k.
      rewrite String.eqb_sym, E. reflexivity.
Qed.

Lemma getCollection_In k s c :
  getCollection k s = Some c -> In c s /\ Coll.id c = k.
Proof.
  unfold getCollection. intros H. apply find_some in H.
  destruct H as [I E]. split; [exact I|now apply String.eqb_eq].
Qed.

Lemma getCollection_stored s c :
  NoDup (List.map Coll.id s) -> In c s -> getCollection (Coll.id c) s = Some c.
Proof.
  unfold getCollection.
  induction s as [|x s IH]; simpl; intros ND I; [destruct I|].
  inversion ND as [|? ? Hx Hs]; subst.
  destruct I as [->|I]; [now rewrite String.eqb_refl|].
  destruct (String.eqb_spec (Coll.id x) (Coll.id c)) as [E|N]; [|now apply IH].
  exfalso. apply Hx. rewrite E. now apply in_map.
Qed.

Lemma getCollection_absent s k :
  ~ In k (List.map Coll.id s) -> getCollection k s = None.
Proof.
  intros N. destruct (getCollection k s) as [c|] eqn:G; [|reflexivity].
  apply getCollection_In in G. destruct G as [I <-].
  exfalso. apply N. now apply in_map.
Qed.

Lemma same_id_same_collection (l : list Coll.Collection) a b :
  NoDup (List.map Coll.id l) -> In a l -> In b l -> Coll.id a = Coll.id b -> a = b.
Proof.
  intros ND Ia Ib E.
  pose proof (getCollection_stored _ _ ND Ia) as Ga.
  pose proof (getCollection_stored _ _ ND Ib) as Gb.
  rewrite E in Ga. congruence.
Qed.

Lemma getAllCollections_perm s : Permutation (Db.getAllCollections s) s.
Proof. unfold Db.getAllCollections. now rewrite !sort_perm. Qed.

Lemma grownFrom_refl c : grownFrom c c.
Proof. repeat split; auto. apply incl_refl. Qed.

(** ** One round of the loop *)

Section Round.
Variable existing : list Coll.Collection.
Variable store0 : Db.Collections.
Variable randomUUID : nat -> string.
Variable clock : nat -> Z.
Hypothesis snapshot :
  forall c, In c existing -> getCollection (Coll.id c) store0 = Some c.
Hypothesis fresh : forall n, getCollection (randomUUID n) store0 = None.

(** The collection saved for a name is the stored one grown, or a new one
    under a fresh key. *)
Lemma collectionFor_cases round name ids :
  let w := App.collectionFor (randomUUID round) (clock round) existing name ids in
  Coll.name w = name
  /\ incl ids (Coll.memoryIds w)
  /\ ((exists e, In e existing /\ Coll.name e = name /\ grownFrom e w)
      \/ (Coll.id w = randomUUID round /\ Coll.memoryIds w = ids)).
Proof.
  unfold App.collectionFor.
  destruct (find _ existing) as [e|] eqn:F; simpl.
  - apply find_some in F. destruct F as [I E]. apply String.eqb_eq in E.
    destruct (uniq_spec (Coll.memoryIds e ++ ids)) as [ND [M _]].
    split; [exact E|]. split.
    + intros x Hx. apply M. apply in_or_app. now right.
    + left. exists e. split; [exact I|]. split; [exact E|].
      repeat split; simpl; auto.
      intros x Hx. apply M. apply in_or_app. now left.
  - split; [reflexivity|]. split; [apply incl_refl|]. right. now split.
Qed.

Lemma updateLoop_extends accepts entries : forall round s,
  storeGrown store0 s ->
  storeGrown store0 (fst (App.updateLoop accepts randomUUID clock existing round entries s)).
Proof.
  induction entries as [|[name ids] rest IH]; simpl; intros round s X;
    [exact X|].
  unfold Db.saveCollection.
  destruct (accepts _); [|exact X].
  apply IH. intros k a G. rewrite get_putCollection.
  destruct (collectionFor_cases round name ids) as [_ [_ [[e [I [_ Gr]]]|[Ew _]]]].
  - destruct (String.eqb_spec
                (Coll.id (App.collectionFor (randomUUID round) (clock round)
                            existing name ids)) k) as [E|N]; [|now apply X].
    destruct Gr as [Ei Gr']. rewrite Ei in E. subst k.
    rewrite (snapshot _ I) in G. inversion G; subst a.
    eexists. split; [reflexivity|]. split; [exact Ei|exact Gr'].
  - rewrite Ew.
    destruct (String.eqb_spec (randomUUID round) k) as [E|N]; [|now apply X].
    subst k. rewrite fresh in G. discriminate.
Qed.

Hypothesis distinct : forall n n', randomUUID n = randomUUID n' -> n = n'.
Hypothesis existing_keys : NoDup (List.map Coll.id existing).

Lemma collectionFor_ids_differ round round' name name' ids ids' :
  name <> name' -> round <> round' ->
  Coll.id (App.collectionFor (randomUUID round) (clock round) existing name ids)
  <> Coll.id (App.collectionFor (randomUUID round') (clock round') existing name' ids').
Proof.
  intros Nn Nr.
  destruct (collectionFor_cases round name ids)
    as [_ [_ [[e [I [En [Ei _]]]]|[Ew _]]]];
    destruct (collectionFor_cases round' name' ids')
      as [_ [_ [[e' [I' [En' [Ei' _]]]]|[Ew' _]]]].
  - rewrite Ei, Ei'. intros E.
    assert (e = e') by now apply (same_id_same_collection existing).
    congruence.
  - rewrite Ei, Ew'. intros E.
    pose proof (snapshot _ I) as G. rewrite E, fresh in G. discriminate.
  - rewrite Ew, Ei'. intros E.
    pose proof (snapshot _ I') as G. rewrite <- E, fresh in G. discriminate.
  - rewrite Ew, Ew'. intros E. apply distinct in E. contradiction.
Qed.

Lemma updateLoop_keeps accepts k entries : forall round s,
  (forall name ids r, In (name, ids) entries -> (round <= r)%nat ->
     Coll.id (App.collectionFor (randomUUID r) (clock r) existing name ids) <> k) ->
  getCollection k
    (fst (App.updateLoop accepts randomUUID clock existing round entries s))
  = getCollection k s.
Proof.
  induction entries as [|[name ids] rest IH]; simpl; intros round s H;
    [reflexivity|].
  unfold Db.saveCollection.
  destruct (accepts _); [|reflexivity].
  rewrite IH.
  - rewrite get_putCollection.
    destruct (String.eqb_spec
                (Coll.id (App.collectionFor (randomUUID round) (clock round)
                            existing name ids)) k) as [E|N]; [|reflexivity].
    exfalso. apply (H name ids round); auto.
  - intros name' ids' r I L. apply H; [now right|lia].
Qed.

(** When every write was accepted, each entry of the map has its
    collection in the store, under its name and with its ids. *)
Lemma updateLoop_covers accepts entries : forall round s,
  NoDup (List.map fst entries) ->
  snd (App.updateLoop accepts randomUUID clock existing round entries s) = true ->
  forall name ids, In (name, ids) entries ->
    exists c,
      getCollection (Coll.id c)
        (fst (App.updateLoop accepts randomUUID clock existing round entries s))
      = Some c
      /\ Coll.name c = name /\ incl ids (Coll.memoryIds c).
Proof.
  induction entries as [|[n0 ids0] rest IH]; simpl; intros round s ND Ok name ids I;
    [destruct I|].
  inversion ND as [|? ? Hn Hrest]; subst.
  unfold Db.saveCollection in *.
  destruct (accepts _); [|discriminate].
  destruct I as [E|I].
  - inversion E; subst n0 ids0.
    set (w := App.collectionFor (randomUUID round) (clock round) existing name ids).
    exists w. destruct (collectionFor_cases round name ids) as [Wn [Wi _]].
    split; [|split; [exact Wn|exact Wi]].
    rewrite updateLoop_keeps.
    + rewrite get_putCollection. now rewrite String.eqb_refl.
    + intros name' ids' r I' L.
      apply not_eq_sym. apply collectionFor_ids_differ; [|lia].
      intros <-. apply Hn. apply in_map_iff. now exists (name, ids').
  - now apply IH.
Qed.

Lemma updateLoop_all_accepted accepts entries : forall round s,
  (forall c, accepts c = true) ->
  snd (App.updateLoop accepts randomUUID clock existing round entries s) = true.
Proof.
  induction entries as [|[name ids] rest IH]; simpl; intros round s A;
    [reflexivity|].
  unfold Db.saveCollection. rewrite A. now apply IH.
Qed.

End Round.

Lemma collectionMap_covers (memories : list MemoryItem) :
  NoDup (List.map fst (App.collectionMapOf memories))
  /\ (forall m, In m memories ->
        exists ids, In (App.collectionName m, ids) (App.collectionMapOf memories)
                    /\ In (id m) ids).
Proof.
  destruct (@collectionMap_from memories []) as [ND [_ F]];
    [constructor|constructor|].
  fold (App.collectionMapOf memories) in ND, F. simpl in F.
  split; [exact ND|].
  intros m I. exists (filedUnder (App.collectionName m) memories).
  assert (J : In (id m) (filedUnder (App.collectionName m) memories)).
  { unfold filedUnder. apply in_map. apply filter_In.
    split; [exact I|apply String.eqb_refl]. }
  split; [|exact J]. rewrite <- F in *. apply In_idsOf.
  intros Z. rewrite Z in J. destruct J.
Qed.

End CollectionFacts.

Module CollectionSpec.

Import JSFacts CollectionFacts.

(** X9.  [collectionMap] has one entry for each collection name borne by
    some memory, a memory whose collection is missing or empty counting
    under General; the entry holds the ids of the memories of that name, in
    corpus order.  So every memory is filed, under one name only. *)
Theorem collectionMap_files_every_memory (memories : list MemoryItem) :
  let map := App.collectionMapOf memories in
  NoDup (List.map fst map)
  /\ (forall name ids,
        In (name, ids) map
        <-> ids = List.map id
                    (filter (fun m => String.eqb (App.collectionName m) name)
                       memories)
            /\ ids <> [])
  /\ (forall m, In m memories ->
        exists ids, In (App.collectionName m, ids) map /\ In (id m) ids).
Proof.
  intros map.
  destruct (@collectionMap_from memories []) as [ND [NE F]];
    [constructor|constructor|].
  fold (App.collectionMapOf memories) in ND, NE, F. fold map in ND, NE, F.
  simpl in F.
  assert (E : forall name ids,
             In (name, ids) map <-> ids = filedUnder name memories /\ ids <> []).
  { intros name ids. split.
    - intros I. split.
      + rewrite <- (idsOf_In _ _ _ ND I). apply F.
      + rewrite Forall_forall in NE. exact (NE _ I).
    - intros [-> H]. rewrite <- F in *. now apply In_idsOf. }
  split; [exact ND|]. split; [exact E|].
  intros m I. exists (filedUnder (App.collectionName m) memories).
  assert (J : In (id m) (filedUnder (App.collectionName m) memories)).
  { unfold filedUnder. apply in_map. apply filter_In.
    split; [exact I|apply String.eqb_refl]. }
  split; [|exact J]. apply E. split; [reflexivity|].
  intros Z. rewrite Z in J. destruct J.
Qed.

(** X10.  Let the collections store hold one collection under each key,
    and let [crypto.randomUUID()] answer keys that are not in the store and
    never the same key twice.  Whatever writes are accepted,
    [updateCollectionsFromMemories] keeps every stored collection under its
    key with its name, description, color and creation time, with all the
    member ids it had, and without duplicate ids if it had none.  When the
    loop ran to its end, which it does when every write is accepted, every
    memory of the corpus is a member of a stored collection that bears its
    collection name (General when the memory has none). *)
Theorem updateCollections_never_shrinks
        (accepts : Coll.Collection -> bool) (randomUUID : nat -> string)
        (clock : nat -> Z) (memories : list MemoryItem) (store : Db.Collections) :
  NoDup (List.map Coll.id store) ->
  (forall n, ~ In (randomUUID n) (List.map Coll.id store)) ->
  (forall n n', randomUUID n = randomUUID n' -> n = n') ->
  let after :=
    App.updateCollectionsFromMemories accepts randomUUID clock memories store in
  (forall c, In c store ->
     exists c', getCollection (Coll.id c) (fst after) = Some c' /\ grownFrom c c')
  /\ (snd after = true ->
      forall m, In m memories ->
        exists c, In c (fst after)
                  /\ Coll.name c = App.collectionName m
                  /\ In (id m) (Coll.memoryIds c))
  /\ ((forall c, accepts c = true) -> snd after = true).
Proof.
  intros ND Fresh Distinct after. subst after.
  unfold App.updateCollectionsFromMemories.
  assert (Snap : forall c, In c (Db.getAllCollections store) ->
                           getCollection (Coll.id c) store = Some c).
  { intros c I. apply getCollection_stored; [exact ND|].
    now apply (Permutation_in _ (getAllCollections_perm store)). }
  assert (Fr : forall n, getCollection (randomUUID n) store = None).
  { intros n. now apply getCollection_absent. }
  assert (EK : NoDup (List.map Coll.id (Db.getAllCollections store))).
  { apply (Permutation_NoDup
             (Permutation_map Coll.id (Permutation_sym (getAllCollections_perm store)))).
    exact ND. }
  split; [|split].
  - intros c I.
    apply (@updateLoop_extends (Db.getAllCollections store) store randomUUID clock
             Snap Fr accepts (App.collectionMapOf memories) 0%nat store).
    + intros k a G. exists a. split; [exact G|apply grownFrom_refl].
    + now apply getCollection_stored.
  - intros Ok m I.
    destruct (collectionMap_covers memories) as [NDm Files].
    destruct (Files m I) as [ids [Im Ii]].
    destruct (@updateLoop_covers (Db.getAllCollections store) store randomUUID clock
                Snap Fr Distinct EK accepts (App.collectionMapOf memories) 0%nat store
                NDm Ok _ _ Im) as [c [G [Nc Inc]]].
    exists c. apply getCollection_In in G. destruct G as [Ic _].
    split; [exact Ic|]. split; [exact Nc|]. now apply Inc.
  - intros A. now apply updateLoop_all_accepted.
Qed.

Lemma updateCollections_never_shrinks_witness :
  let corpus := [Sample.breathing; Sample.workNote] in
  let after :=
    App.updateCollectionsFromMemories (fun _ => true) Sample.freshKey
      (fun _ => 9) corpus [Sample.workCollection] in
  (exists c', getCollection "c1" (fst after) = Some c'
              /\ grownFrom Sample.workCollection c')
  /\ List.map (fun c => (Coll.name c, Coll.memoryIds c)) (fst after)
     = [("Work", ["w0"; "w1"]); ("General", ["m1"])].
Proof.
  intros corpus after.
  assert (ND : NoDup (List.map Coll.id [Sample.workCollection])).
  { repeat constructor. intros []. }
  assert (Fr : forall n, ~ In (Sample.freshKey n)
                             (List.map Coll.id [Sample.workCollection])).
  { intros n [E|[]]. discriminate E. }
  assert (Inj : forall n n', Sample.freshKey n = Sample.freshKey n' -> n = n').
  { intros n n' E. injection E as E. revert n' E.
    induction n as [|n IH]; intros [|n'] E; try discriminate E; [reflexivity|].
    injection E as E. f_equal. now apply IH. }
  destruct (@updateCollections_never_shrinks (fun _ => true) Sample.freshKey
              (fun _ => 9) corpus [Sample.workCollection] ND Fr Inj) as [G _].
  split; [|reflexivity].
  apply (G Sample.workCollection). now left.
Defined.

End CollectionSpec.

(** * The collections view and the insights *)

Module ViewFacts.

Import JSFacts.

Lemma subseq_filter {A} (p : A -> bool) l : subseq (filter p l) l.
Proof.
  induction l as [|x l IH]; simpl; [constructor|].
  destruct (p x); now constructor.
Qed.

Lemma subseq_nil_l {A} (l : list A) : subseq [] l.
Proof. induction l; now constructor. Qed.

Lemma subseq_firstn {A} n (l : list A) : subseq (firstn n l) l.
Proof.
  revert n; induction l as [|x l IH]; intros [|n]; simpl.
  - constructor.
  - constructor.
  - apply subseq_nil_l.
  - apply subseq_keep, IH.
Qed.

Lemma subseq_trans {A} (a b c : list A) : subseq a b -> subseq b c -> subseq a c.
Proof.
  intros Hab Hbc. revert a Hab.
  induction Hbc as [|x b c Hbc IH|x b c Hbc IH]; intros a Hab.
  - exact Hab.
  - constructor. now apply IH.
  - inversion Hab; subst; constructor; now apply IH.
Qed.

Lemma subseq_In {A} (l' l : list A) x : subseq l' l -> In x l' -> In x l.
Proof.
  induction 1 as [|y l' l S IH|y l' l S IH]; simpl; intros I; auto.
  destruct I; auto.
Qed.

(** Picking from a corpus with distinct ids the memories whose id is in a
    selection of it gives the selection back. *)
Lemma pick_by_id l' l :
  subseq l' l -> NoDup (map id l) ->
  filter (fun m => existsb (String.eqb (id m)) (map id l')) l = l'.
Proof.
  induction 1 as [|x l' l S IH|x l' l S IH]; simpl; intros ND.
  - reflexivity.
  - inversion ND as [|? ? Hx Hl]; subst.
    destruct (existsb (String.eqb (id x)) (map id l')) eqn:E.
    + exfalso. apply CollectionFacts.existsb_eqb in E.
      apply in_map_iff in E. destruct E as [y [Ey Iy]].
      apply Hx. rewrite <- Ey. apply in_map. eapply subseq_In; eauto.
    + now apply IH.
  - inversion ND as [|? ? Hx Hl]; subst.
    rewrite String.eqb_refl. simpl. f_equal.
    etransitivity; [|apply (IH Hl)].
    apply filter_ext_in. intros m Im. simpl.
    destruct (String.eqb_spec (id m) (id x)) as [E|N]; [|reflexivity].
    exfalso. apply Hx. rewrite <- E. now apply in_map.
Qed.

Lemma forgotten_overdue now m :
  Gemini.forgotten now m = true <-> overdue now m.
Proof.
  unfold Gemini.forgotten, overdue.
  rewrite andb_true_iff, Z.ltb_lt, Qltb_lt.
  change ONE_MONTH with (30 * 86400000).
  split; intros [A B]; (split; [exact A|]).
  - unfold JS.orQ in B.
    destruct (importance (aiMetadata m)) as [v|];
      [|exfalso; revert B; apply Qle_not_lt; discriminate].
    destruct (Qeq_bool v 0);
      [exfalso; revert B; apply Qle_not_lt; discriminate|].
    now exists v.
  - destruct B as [v [E L]]. rewrite E. simpl.
    destruct (Qeq_bool v 0) eqn:Z; [|exact L].
    apply Qeq_bool_iff in Z. rewrite Z in L.
    exfalso. revert L. apply Qle_not_lt. discriminate.
Qed.

End ViewFacts.

Module ViewSpec.

Import JSFacts InsightFacts CollectionFacts ViewFacts.

(** X11.  A card of the collections view stands for the memories whose
    collection field is the card's name.  For a name other than General
    (and not empty) these are, id for id, the memories [collectionMap] files
    under the name.  A memory without a collection field is filed under
    General and stands behind no card at all. *)
Theorem collection_cards_leave_out_unfiled (memories : list MemoryItem) :
  (forall c m,
      In m (App.collectionMemories memories c)
      <-> In m memories /\ collection (aiMetadata m) = Some (Coll.name c))
  /\ (forall c,
        Coll.name c <> "General" -> Coll.name c <> "" ->
        map id (App.collectionMemories memories c)
        = idsOf (App.collectionMapOf memories) (Coll.name c))
  /\ (forall m,
        In m memories -> collection (aiMetadata m) = None ->
        In (id m) (idsOf (App.collectionMapOf memories) "General")
        /\ forall c, ~ In m (App.collectionMemories memories c)).
Proof.
  assert (Ids : forall n, idsOf (App.collectionMapOf memories) n
                          = filedUnder n memories).
  { intros n.
    destruct (@collectionMap_from memories []) as [_ [_ F]];
      [constructor|constructor|]. exact (F n). }
  assert (M : forall c m,
             In m (App.collectionMemories memories c)
             <-> In m memories /\ collection (aiMetadata m) = Some (Coll.name c)).
  { intros c m. unfold App.collectionMemories. rewrite filter_In.
    destruct (collection (aiMetadata m)) as [n|].
    - rewrite String.eqb_eq. intuition congruence.
    - intuition discriminate. }
  split; [exact M|]. split.
  - intros c NG NE. rewrite Ids. unfold filedUnder, App.collectionMemories.
    f_equal. apply filter_ext. intros m.
    unfold App.collectionName, JS.orString.
    destruct (collection (aiMetadata m)) as [n|].
    + destruct n as [|ch n]; [|reflexivity].
      change (String.eqb "" (Coll.name c) = String.eqb "General" (Coll.name c)).
      rewrite (proj2 (String.eqb_neq "" (Coll.name c))) by congruence.
      rewrite (proj2 (String.eqb_neq "General" (Coll.name c))) by congruence.
      reflexivity.
    + change (false = String.eqb "General" (Coll.name c)).
      rewrite (proj2 (String.eqb_neq "General" (Coll.name c))) by congruence.
      reflexivity.
  - intros m I E. split.
    + rewrite Ids. unfold filedUnder. apply in_map_iff. exists m.
      split; [reflexivity|]. apply filter_In. split; [exact I|].
      unfold App.collectionName. now rewrite E.
    + intros c Hc. apply M in Hc. destruct Hc as [_ Hc]. congruence.
Qed.

Lemma collection_cards_leave_out_unfiled_witness :
  let corpus := [Sample.breathing; Sample.workNote] in
  In "m1" (idsOf (App.collectionMapOf corpus) "General")
  /\ forall c, ~ In Sample.breathing (App.collectionMemories corpus c).
Proof.
  intros corpus.
  apply (proj2 (proj2 (collection_cards_leave_out_unfiled corpus)) Sample.breathing).
  - now left.
  - reflexivity.
Defined.

(** X12.  [generateInsights] gives nothing for fewer than 3 memories.
    Otherwise it gives at most 3 pattern insights and then at most one
    reminder, each with a relevance above 0 and at most 1.  The reminder is
    there exactly when some memory is rated above 0.6 and was last seen
    more than 30 days ago; it lists the first three such memories of the
    corpus, with relevance 0.8.  A memory without importance, or rated 0, is
    never listed. *)
Theorem insights_shape (now : Z) (memories : list MemoryItem) :
  let out := Gemini.generateInsights now memories in
  ((List.length memories < 3)%nat -> out = [])
  /\ (exists patterns reminders,
        out = patterns ++ reminders
        /\ (List.length patterns <= 3)%nat
        /\ Forall (fun i => insightType i = pattern) patterns
        /\ (reminders = []
            \/ exists r, reminders = [r] /\ insightType r = reminder
                         /\ relevance r = 0.8%Q
                         /\ exists picked,
                             picked = firstn 3 (filter (Gemini.forgotten now) memories)
                             /\ picked <> []
                             /\ memoryIds r = map id picked
                             /\ Forall (overdue now) picked)
        /\ ((3 <= List.length memories)%nat ->
            (reminders <> [] <-> exists m, In m memories /\ overdue now m)))
  /\ Forall (fun i => 0 < relevance i <= 1)%Q out.
Proof.
  intros out. subst out. unfold Gemini.generateInsights.
  destruct (List.length memories <? 3)%nat eqn:L.
  - split; [reflexivity|]. split; [|constructor].
    apply Nat.ltb_lt in L.
    exists [], []. split; [reflexivity|]. split; [simpl; lia|].
    split; [constructor|]. split; [now left|]. intros H. lia.
  - apply Nat.ltb_ge in L.
    split; [intros H; lia|].
    set (top := Gemini.topTopics memories).
    assert (TopLen : (List.length top <= 3)%nat).
    { subst top. unfold Gemini.topTopics, JS.slice0.
      etransitivity; [apply filter_length_le|apply firstn_le_length]. }
    assert (PLen : forall es,
               (List.length (flat_map (Gemini.patternInsight memories) es)
                <= List.length es)%nat).
    { induction es as [|e es IH]; simpl; [lia|].
      rewrite length_app, patternInsight_shape.
      destruct (2 <=? _)%nat; simpl; lia. }
    assert (PAll : forall es,
               Forall (fun i => insightType i = pattern
                                /\ exists e, In e es /\ i = patternFor memories e)
                 (flat_map (Gemini.patternInsight memories) es)).
    { induction es as [|e es IH]; simpl; [constructor|].
      apply Forall_app. split.
      - rewrite patternInsight_shape.
        destruct (2 <=? _)%nat; repeat constructor. exists e. auto.
      - eapply Forall_impl; [|exact IH].
        intros i [T [e' [I E]]]. split; [exact T|]. exists e'. auto. }
    set (forgottenOnes := filter (Gemini.forgotten now) memories).
    assert (RCases : Gemini.reminderInsight now memories = []
                     /\ forgottenOnes = []
                     \/ exists r, Gemini.reminderInsight now memories = [r]
                                  /\ insightType r = reminder
                                  /\ relevance r = 0.8%Q
                                  /\ memoryIds r = map id (firstn 3 forgottenOnes)
                                  /\ forgottenOnes <> []).
    { unfold Gemini.reminderInsight, JS.slice0. fold forgottenOnes.
      destruct forgottenOnes as [|f fs]; [left; now split|].
      right. simpl. eexists. split; [reflexivity|]. repeat split. discriminate. }
    assert (Over : Forall (overdue now) (firstn 3 forgottenOnes)).
    { apply Forall_forall. intros m I. apply firstn_In in I.
      subst forgottenOnes. apply filter_In in I. now apply forgotten_overdue. }
    assert (Ex : forgottenOnes <> [] <-> exists m, In m memories /\ overdue now m).
    { subst forgottenOnes. split.
      - intros NE. destruct (filter _ memories) as [|m ms] eqn:F; [congruence|].
        assert (I : In m (filter (Gemini.forgotten now) memories))
          by (rewrite F; now left).
        apply filter_In in I. exists m. split; [tauto|].
        now apply forgotten_overdue.
      - intros [m [I O]] Z.
        assert (J : In m (filter (Gemini.forgotten now) memories)).
        { apply filter_In. split; [exact I|now apply forgotten_overdue]. }
        rewrite Z in J. destruct J. }
    split.
    + exists (flat_map (Gemini.patternInsight memories) top),
        (Gemini.reminderInsight now memories).
      split; [reflexivity|]. split; [etransitivity; [apply PLen|exact TopLen]|].
      split; [eapply Forall_impl; [|apply PAll]; now intros i [T _]|].
      split.
      * destruct RCases as [[R _]|[r [R [T [V [Mi NE]]]]]]; [now left|].
        right. exists r. repeat split; auto.
        exists (firstn 3 forgottenOnes). repeat split; auto.
        destruct forgottenOnes; [congruence|discriminate].
      * intros _. rewrite <- Ex.
        destruct RCases as [[R Z]|[r [R [_ [_ [_ NE]]]]]]; rewrite R.
        -- split; congruence.
        -- split; [intros _; exact NE|discriminate].
    + apply Forall_app. split.
      * eapply Forall_impl; [|apply (PAll top)].
        intros i [_ [[topic count] [I ->]]]. simpl.
        subst top. unfold Gemini.topTopics in I. apply filter_In in I.
        destruct I as [_ C]. apply Nat.leb_le in C. simpl in C.
        split; [|apply Q.le_min_l].
        apply Q.min_glb_lt; [reflexivity|].
        apply Qlt_shift_div_l.
        -- change 0%Q with (inject_Z 0). rewrite <- Zlt_Qlt. lia.
        -- rewrite Qmult_0_l. change 0%Q with (inject_Z 0).
           rewrite <- Zlt_Qlt. lia.
      * destruct RCases as [[R _]|[r [R [_ [V _]]]]]; rewrite R;
          [constructor|].
        repeat constructor; rewrite V; [reflexivity|discriminate].
Qed.

Lemma insights_shape_witness :
  Gemini.generateInsights 0 [Sample.breathing; Sample.packing] = [].
Proof.
  apply (proj1 (insights_shape 0 [Sample.breathing; Sample.packing])).
  simpl. lia.
Defined.

(** X13.  In a corpus with distinct ids, an entry of the insights view
    stands, for a pattern insight, for exactly the memories that carry its
    topic (2 or more), and for the reminder, for exactly the memories the
    reminder picked, in corpus order. *)
Theorem insight_entries_show_their_memories (now : Z)
        (memories : list MemoryItem) :
  NoDup (map id memories) ->
  forall i, In i (Gemini.generateInsights now memories) ->
    (insightType i = pattern ->
     exists topic,
       App.insightMemories memories i = filter (Gemini.hasTopic topic) memories
       /\ (2 <= List.length (App.insightMemories memories i))%nat)
    /\ (insightType i = reminder ->
        App.insightMemories memories i
        = firstn 3 (filter (Gemini.forgotten now) memories)).
Proof.
  intros ND i I. unfold Gemini.generateInsights in I.
  destruct (List.length memories <? 3)%nat; [destruct I|].
  apply in_app_or in I. destruct I as [I|I].
  - apply in_flat_map in I. destruct I as [[topic count] [_ I]].
    rewrite patternInsight_shape in I.
    destruct (2 <=? carriers (fst (topic, count)) memories)%nat eqn:G;
      [|destruct I].
    destruct I as [<-|[]]. split; [|discriminate].
    intros _. exists topic. unfold App.insightMemories. simpl.
    rewrite (pick_by_id (subseq_filter _ _) ND).
    split; [reflexivity|]. now apply Nat.leb_le in G.
  - unfold Gemini.reminderInsight in I.
    destruct (0 <? _)%nat; [|destruct I].
    destruct I as [<-|[]]. split; [discriminate|].
    intros _. unfold App.insightMemories, JS.slice0. cbn [memoryIds].
    apply pick_by_id; [|exact ND].
    eapply subseq_trans; [apply subseq_firstn|apply subseq_filter].
Qed.

Lemma insight_entries_show_their_memories_witness :
  exists i topic,
    In i (Gemini.generateInsights 0 Sample.designCorpus)
    /\ App.insightMemories Sample.designCorpus i
       = filter (Gemini.hasTopic topic) Sample.designCorpus.
Proof.
  assert (ND : NoDup (map id Sample.designCorpus)).
  { simpl. repeat constructor; simpl; intuition discriminate. }
  assert (E : exists i rest,
             Gemini.generateInsights 0 Sample.designCorpus = i :: rest
             /\ insightType i = pattern).
  { vm_compute. eexists. eexists. split; reflexivity. }
  destruct E as [i [rest [E T]]].
  assert (I : In i (Gemini.generateInsights 0 Sample.designCorpus)).
  { rewrite E. now left. }
  destruct (proj1 (@insight_entries_show_their_memories 0 Sample.designCorpus
                     ND i I) T)
    as [topic [Eq _]].
  exists i, topic. split; [exact I|exact Eq].
Defined.

End ViewSpec.

(** * More on the hybrid search *)

Module SearchMoreFacts.

Import StringFacts JSFacts SearchFacts.

Lemma toLowerCase_app a b :
  JS.toLowerCase (a ++ b) = (JS.toLowerCase a ++ JS.toLowerCase b)%string.
Proof. induction a as [|c a IH]; simpl; [reflexivity|now rewrite IH]. Qed.

Lemma append_assoc (a b c : string) :
  ((a ++ b) ++ c = a ++ (b ++ c))%string.
Proof. induction a as [|x a IH]; simpl; [reflexivity|now rewrite IH]. Qed.

Lemma append_nil_r (a : string) : (a ++ "" = a)%string.
Proof. induction a as [|x a IH]; simpl; [reflexivity|now rewrite IH]. Qed.

Lemma occursIn_refl s : occursIn s s.
Proof. exists EmptyString, EmptyString. simpl. now rewrite append_nil_r. Qed.

Lemma occursIn_trans a b c : occursIn a b -> occursIn b c -> occursIn a c.
Proof.
  intros [p1 [q1 E1]] [p2 [q2 E2]]. subst.
  exists (p2 ++ p1)%string, (q1 ++ q2)%string.
  now rewrite !append_assoc.
Qed.

Lemma occursIn_lower a b :
  occursIn a b -> occursIn (JS.toLowerCase a) (JS.toLowerCase b).
Proof.
  intros [p [q E]]. subst.
  exists (JS.toLowerCase p), (JS.toLowerCase q).
  now rewrite !toLowerCase_app.
Qed.

Lemma join_cons sep x y rest :
  JS.join sep (x :: y :: rest) = (x ++ sep ++ JS.join sep (y :: rest))%string.
Proof. reflexivity. Qed.

(** Each part occurs in the joined text. *)
Lemma part_occurs sep parts t :
  In t parts -> occursIn t (JS.join sep parts).
Proof.
  induction parts as [|x [|y rest] IH]; intros I.
  - destruct I.
  - destruct I as [<-|[]]. apply occursIn_refl.
  - rewrite join_cons. destruct I as [<-|I].
    + exists EmptyString, (sep ++ JS.join sep (y :: rest))%string. reflexivity.
    + destruct (IH I) as [p [q E]]. rewrite E.
      exists (x ++ sep ++ p)%string, q. now rewrite !append_assoc.
Qed.

Lemma join_app sep parts more :
  parts <> [] -> more <> [] ->
  JS.join sep (parts ++ more)
  = (JS.join sep parts ++ sep ++ JS.join sep more)%string.
Proof.
  intros NP NM. destruct more as [|m more]; [congruence|]. clear NM.
  induction parts as [|x parts IH]; [congruence|].
  destruct parts as [|y rest].
  - reflexivity.
  - change (JS.join sep ((x :: y :: rest) ++ m :: more))
      with (x ++ sep ++ JS.join sep ((y :: rest) ++ m :: more))%string.
    rewrite IH by discriminate.
    rewrite join_cons. now rewrite !append_assoc.
Qed.

(** The text joined from a list occurs, at the front, in the text joined
    from a longer list. *)
Lemma join_prefix sep parts more :
  parts <> [] ->
  exists post, JS.join sep (parts ++ more) = (JS.join sep parts ++ post)%string.
Proof.
  intros NE. destruct more as [|m more].
  - exists EmptyString. now rewrite app_nil_r, append_nil_r.
  - eexists. apply join_app; [exact NE|discriminate].
Qed.

Lemma allText_in_allMetadataText m :
  occursIn (App.allText m) (App.allMetadataText m).
Proof.
  unfold App.allText, App.allMetadataText.
  apply occursIn_lower.
  set (front := [content m; summary (aiMetadata m)] ++ topics (aiMetadata m)).
  replace ([content m; summary (aiMetadata m)]
             ++ topics (aiMetadata m) ++ mood (aiMetadata m))
    with (front ++ mood (aiMetadata m)) by (subst front; now rewrite <- app_assoc).
  destruct (@join_prefix " " front (mood (aiMetadata m))) as [post E];
    [subst front; discriminate|].
  rewrite E. exists EmptyString, post. reflexivity.
Qed.

Lemma includes_trans a b c :
  JS.includes b a = true -> occursIn b c -> JS.includes c a = true.
Proof.
  rewrite !includes_occurs. intros H1 H2. now apply occursIn_trans with b.
Qed.

Lemma NoDup_map_filter {A B} (f : A -> B) (p : A -> bool) l :
  NoDup (map f l) -> NoDup (map f (filter p l)).
Proof.
  induction l as [|x l IH]; simpl; intros ND; [constructor|].
  inversion ND as [|? ? Hx Hl]; subst.
  destruct (p x); simpl; [|now apply IH].
  constructor; [|now apply IH].
  intros I. apply Hx. apply in_map_iff in I. destruct I as [y [E I]].
  apply filter_In in I. rewrite <- E. apply in_map. tauto.
Qed.


End SearchMoreFacts.

Module SearchMoreSpec.

Import StringFacts JSFacts SearchFacts SearchMoreFacts.

(** X14.  The three lexical tests of the search are nested: a memory that
    passes the keyword filter of short queries (the query occurs in its
    content, its summary or one topic) passes the test of the fallback (the
    query occurs in content, summary and topics joined by spaces), and a
    memory that passes the test of the fallback gets the keyword boost of
    the ranking (the query occurs in the joined text with the moods
    added). *)
Theorem lexical_tests_nested (lowerQ : string) (m : MemoryItem) :
  (App.matchesKeyword lowerQ m = true -> JS.includes (App.allText m) lowerQ = true)
  /\ (JS.includes (App.allText m) lowerQ = true ->
      (App.keywordBoost lowerQ m == 0.25)%Q).
Proof.
  split.
  - unfold App.matchesKeyword. rewrite !orb_true_iff, existsb_exists.
    intros H.
    assert (P : forall t, In t ([content m; summary (aiMetadata m)]
                                  ++ topics (aiMetadata m)) ->
                          JS.includes (JS.toLowerCase t) lowerQ = true ->
                          JS.includes (App.allText m) lowerQ = true).
    { intros t I Ht. apply includes_trans with (JS.toLowerCase t); [exact Ht|].
      unfold App.allText. apply occursIn_lower. now apply part_occurs. }
    destruct H as [[C|S]|[t [I T]]].
    + apply (P (content m)); [now left|exact C].
    + apply (P (summary (aiMetadata m))); [right; now left|exact S].
    + apply (P t); [right; right; exact I|exact T].
  - intros H. unfold App.keywordBoost.
    rewrite (includes_trans _ H (allText_in_allMetadataText m)). reflexivity.
Qed.

Lemma lexical_tests_nested_witness :
  JS.includes (App.allText Sample.breathing) "exercise" = true.
Proof.
  apply (proj1 (lexical_tests_nested "exercise" Sample.breathing)).
  reflexivity.
Defined.

(** The nesting is strict: a short query can straddle two fields of the
    joined text, and a mood is seen by the ranking only. *)
Lemma lexical_tests_differ :
  JS.includes (App.allText Sample.packing) "t t" = true
  /\ App.matchesKeyword "t t" Sample.packing = false
  /\ JS.includes (App.allText Sample.breathing) "calm" = false
  /\ (App.keywordBoost "calm" Sample.breathing == 0.25)%Q.
Proof. repeat split. Qed.



(** X16.  The recency boost is 0.15 times a factor that falls in a straight
    line from 1, for a memory created now, to 0 at 60 days, and stays 0
    from there on; so a memory never gets less of it than an older one.
    For a memory that is not from the future the three boosts add up to
    between 0 and 0.75. *)
Theorem recency_decays_over_sixty_days (NOW : Z) (a b : MemoryItem) (lowerQ : string) :
  let age m := NOW - createdAt m in
  (0 <= age a <= 60 * 86400000 ->
   (App.recencyScore NOW a == 1 - inject_Z (age a) / inject_Z (60 * 86400000))%Q)
  /\ (60 * 86400000 <= age a -> (App.recencyScore NOW a == 0)%Q)
  /\ (age a = 0 -> (App.recencyScore NOW a == 1)%Q)
  /\ (createdAt a <= createdAt b ->
      (App.recencyScore NOW a <= App.recencyScore NOW b)%Q)
  /\ (0 <= age a -> (0 <= App.boosts NOW lowerQ a <= 0.75)%Q).
Proof.
  intros age.
  assert (Sign : forall m, NOW - createdAt m <= 60 * 86400000 <->
                           (0 <= 1 - inject_Z (NOW - createdAt m)
                                     / inject_Z (60 * ONE_DAY))%Q).
  { intros m. split.
    - intros H.
      assert (inject_Z (NOW - createdAt m) / inject_Z (60 * ONE_DAY) <= 1)%Q.
      { apply Qle_shift_div_r; [reflexivity|]. rewrite Qmult_1_l.
        rewrite <- Zle_Qle. change (60 * ONE_DAY) with (60 * 86400000). lia. }
      lra.
    - intros H.
      destruct (Z.le_gt_cases (NOW - createdAt m) (60 * 86400000)) as [K|K];
        [exact K|exfalso].
      assert (1 < inject_Z (NOW - createdAt m) / inject_Z (60 * ONE_DAY))%Q.
      { apply Qlt_shift_div_l; [reflexivity|]. rewrite Qmult_1_l.
        rewrite <- Zlt_Qlt. change (60 * ONE_DAY) with (60 * 86400000). lia. }
      lra. }
  assert (Mono : forall x y, x <= y ->
                   (1 - inject_Z y / inject_Z (60 * ONE_DAY)
                    <= 1 - inject_Z x / inject_Z (60 * ONE_DAY))%Q).
  { intros x y H.
    assert (inject_Z x / inject_Z (60 * ONE_DAY)
            <= inject_Z y / inject_Z (60 * ONE_DAY))%Q.
    { apply Qmult_le_compat_r; [now rewrite <- Zle_Qle|]. discriminate. }
    lra. }
  change (60 * 86400000) with (60 * ONE_DAY) at 1.
  split; [|split; [|split; [|split]]].
  - intros [_ H]. unfold App.recencyScore. fold (age a).
    apply Q.max_r. now apply Sign.
  - intros H. unfold App.recencyScore. apply Q.max_l.
    destruct (Z.eq_dec (NOW - createdAt a) (60 * 86400000)) as [E|N].
    + rewrite E. discriminate.
    + apply Qlt_le_weak, Qnot_le_lt. intros K. apply Sign in K.
      subst age. simpl in H. lia.
  - intros E. unfold App.recencyScore. subst age. simpl in E. rewrite E.
    reflexivity.
  - intros H. unfold App.recencyScore.
    apply Q.max_le_compat_l. apply Mono. lia.
  - intros H. unfold App.boosts, App.keywordBoost, App.tagBoost.
    destruct (recencyScore_range NOW a) as [R0 R1].
    assert (R1' : (App.recencyScore NOW a <= 1)%Q)
      by (apply R1; subst age; simpl in H; lia).
    destruct (JS.includes _ _); destruct (existsb _ _); lra.
Qed.

Lemma recency_decays_over_sixty_days_witness :
  (App.recencyScore (1000 + 30 * 86400000) Sample.breathing == 0.5)%Q.
Proof.
  destruct (recency_decays_over_sixty_days (1000 + 30 * 86400000)
              Sample.breathing Sample.packing "x") as [H _].
  rewrite H; [reflexivity|]. simpl. lia.
Defined.

(** X17.  Whatever the query, what the search delivers is made of memories
    of the corpus, none of them twice when the corpus holds none twice; and
    the search asks for at most one embedding, that of the query as
    typed, and for none when it delivers [null] or filters by keyword. *)
Theorem search_delivers_corpus_memories
        (cosineSimilarity : list Q -> list Q -> Q)
        (getEmbedding : string -> list Q) (NOW : Z) (q : string)
        (memories : list MemoryItem) :
  let run := App.performSearch cosineSimilarity getEmbedding NOW q memories in
  (forall r, App.delivered run = Some r ->
     incl (resultItems r) memories
     /\ (NoDup memories -> NoDup (resultItems r)))
  /\ (App.embeddingCalls run = []
      \/ (App.embeddingCalls run = [q] /\ (3 <= String.length q)%nat))
  /\ ((String.length q < 3)%nat -> App.embeddingCalls run = []).
Proof.
  intros run. subst run.
  assert (Fb : forall lowerQ,
             incl (map item (App.fallbackResults lowerQ memories)) memories
             /\ (NoDup memories ->
                 NoDup (map item (App.fallbackResults lowerQ memories)))).
  { intros lowerQ. unfold App.fallbackResults. rewrite map_map. simpl.
    rewrite map_id. split.
    - intros m I. apply filter_In in I. tauto.
    - apply NoDup_filter. }
  destruct (JS.falsyString (JS.trim q)) eqn:B.
  - apply trim_blank in B. rewrite run_blank by exact B. simpl.
    split; [discriminate|]. split; [now left|reflexivity].
  - apply trim_not_blank in B.
    destruct (Nat.lt_ge_cases (String.length q) 3) as [L|L].
    + rewrite run_short by assumption. simpl.
      split; [|split; [now left|reflexivity]].
      intros r E. injection E as <-. simpl. split.
      * intros m I. apply filter_In in I. tauto.
      * apply NoDup_filter.
    + rewrite run_hybrid by assumption. cbv zeta. simpl.
      split; [|split; [right; now split|intros H; lia]].
      intros r E. injection E as <-. simpl.
      set (lowerQ := JS.toLowerCase q).
      set (scoredResults :=
             match getEmbedding q with
             | [] => []
             | _ :: _ => map (App.scoreMemory cosineSimilarity NOW lowerQ
                                (getEmbedding q)) memories
             end).
      set (ranked := filter (fun r => JS.Qltb 0.40 (score r))
                       (JS.sort (fun a b => score b - score a)%Q scoredResults)).
      destruct ranked as [|r0 rk] eqn:ER; [apply Fb|]. rewrite <- ER.
      assert (Items : incl (map item scoredResults) memories
                      /\ (NoDup memories -> NoDup (map item scoredResults))).
      { subst scoredResults. destruct (getEmbedding q).
        - split; [intros x []|constructor].
        - rewrite map_map. simpl. rewrite map_id.
          split; [apply incl_refl|auto]. }
      destruct Items as [Inc ND]. split.
      * intros m I. apply in_map_iff in I. destruct I as [r [<- I]].
        subst ranked. apply filter_In in I. destruct I as [I _].
        apply sort_In in I. apply Inc. now apply in_map.
      * intros NDm. subst ranked. apply NoDup_map_filter.
        apply (Permutation_NoDup
                 (Permutation_map item
                    (Permutation_sym (sort_perm _ scoredResults)))).
        now apply ND.
Qed.

Lemma search_delivers_corpus_memories_witness :
  App.embeddingCalls
    (App.performSearch Sample.noSimilarity Sample.embeddingUp 0 "ab"
       [Sample.breathing])
  = [].
Proof.
  apply (proj2 (proj2 (search_delivers_corpus_memories Sample.noSimilarity
                         Sample.embeddingUp 0 "ab" [Sample.breathing]))).
  simpl. lia.
Defined.

End SearchMoreSpec.

(** * More on linking and resurfacing *)

Module LinkingFacts.

Import JSFacts StoreFacts.

Lemma find_by_id (all : list MemoryItem) k r :
  find (fun m => String.eqb (id m) k) all = Some r -> In r all /\ id r = k.
Proof.
  intros F. apply find_some in F. destruct F as [I E].
  split; [exact I|now apply String.eqb_eq].
Qed.

Lemma find_by_id_exists (all : list MemoryItem) m :
  In m all -> exists r, find (fun x => String.eqb (id x) (id m)) all = Some r.
Proof.
  intros I. destruct (find _ all) as [r|] eqn:F; [now exists r|].
  exfalso. apply (find_none _ _ F) in I. now rewrite String.eqb_refl in I.
Qed.

(** What the loop leaves under a key when every write is accepted. *)
Lemma linkRelated_get accepts newId all ids :
  (forall m, accepts m = true) ->
  forall s,
    snd (App.linkRelated accepts newId ids all s) = true
    /\ forall k,
        Db.get k (fst (App.linkRelated accepts newId ids all s))
        = match (if existsb (String.eqb k) ids
                 then find (fun m => String.eqb (id m) k) all else None) with
          | Some r => Some (App.updatedRelated newId r)
          | None => Db.get k s
          end.
Proof.
  intros A. induction ids as [|i rest IH]; intros s; simpl; [now split|].
  destruct (find (fun m => String.eqb (id m) i) all) as [related|] eqn:F.
  - unfold Db.saveMemory. rewrite A.
    destruct (IH (Db.put (App.updatedRelated newId related) s)) as [Ok G].
    split; [exact Ok|]. intros k. rewrite G, get_put.
    pose proof (find_by_id _ _ F) as [_ Ei]. simpl. rewrite Ei.
    destruct (String.eqb_spec k i) as [->|N]; simpl.
    + rewrite String.eqb_refl, F.
      now destruct (existsb (String.eqb i) rest).
    + destruct (String.eqb_spec i k); [congruence|reflexivity].
  - destruct (IH s) as [Ok G]. split; [exact Ok|]. intros k. rewrite G.
    destruct (String.eqb_spec k i) as [->|N]; simpl; [|reflexivity].
    rewrite F. now destruct (existsb (String.eqb i) rest).
Qed.

(** What the loop may leave under a key, whatever is accepted. *)
Lemma linkRelated_touches accepts newId all ids : forall s k,
  Db.get k (fst (App.linkRelated accepts newId ids all s)) = Db.get k s
  \/ (In k ids
      /\ exists r, find (fun m => String.eqb (id m) k) all = Some r
                   /\ Db.get k (fst (App.linkRelated accepts newId ids all s))
                      = Some (App.updatedRelated newId r)).
Proof.
  induction ids as [|i rest IH]; intros s k; simpl; [now left|].
  destruct (find (fun m => String.eqb (id m) i) all) as [related|] eqn:F.
  - unfold Db.saveMemory. destruct (accepts _); [|now left].
    destruct (IH (Db.put (App.updatedRelated newId related) s) k) as [E|[I R]].
    + rewrite E, get_put. simpl.
      pose proof (find_by_id _ _ F) as [_ Ei]. rewrite Ei.
      destruct (String.eqb_spec i k) as [->|N]; [|now left].
      right. split; [now left|]. exists related. split; [exact F|reflexivity].
    + right. split; [now right|exact R].
  - destruct (IH s k) as [E|[I R]]; [now left|].
    right. split; [now right|exact R].
Qed.

Lemma related_ids_in_corpus cs memory all threshold i :
  In i (Gemini.findRelatedMemories cs memory all threshold) ->
  i <> id memory
  /\ exists r, find (fun m => String.eqb (id m) i) all = Some r.
Proof.
  unfold Gemini.findRelatedMemories, JS.slice0. intros I.
  apply firstn_In in I. rewrite LinkerSpec.relatedLoop_filter in I.
  apply in_map_iff in I. destruct I as [other [<- I]].
  apply filter_In in I. destruct I as [I M].
  apply andb_true_iff in M. destruct M as [N _].
  apply negb_true_iff, String.eqb_neq in N.
  split; [exact N|now apply find_by_id_exists].
Qed.

Lemma existsb_In k ids : existsb (String.eqb k) ids = true <-> In k ids.
Proof. apply CollectionFacts.existsb_eqb. Qed.

End LinkingFacts.

Module LinkingSpec.

Import JSFacts StoreFacts LinkingFacts.

(** X18.  When the store accepts every write, saving a new memory links it
    both ways: the new memory is stored with the ids found by
    [findRelatedMemories] as its [relatedMemoryIds]; under each of these ids
    the store then holds the memory of the corpus with that id, with the new
    id appended to its [relatedMemoryIds] and no other field changed; and
    every other key holds what it held. *)
Theorem save_links_both_ways
        (cosineSimilarity : list Q -> list Q -> Q) (accepts : MemoryItem -> bool)
        (newMemory : MemoryItem) (allMemories : list MemoryItem)
        (store : Db.Store) :
  (forall m, accepts m = true) ->
  let ids :=
    Gemini.findRelatedMemories cosineSimilarity newMemory allMemories
      Gemini.defaultThreshold in
  let after := App.linkAndSave cosineSimilarity accepts newMemory allMemories store in
  snd after = true
  /\ (exists n, Db.get (id newMemory) (fst after) = Some n
                /\ relatedMemoryIds (aiMetadata n) = Some ids
                /\ sameButRelated newMemory n)
  /\ (forall i, In i ids ->
        exists r r',
          In r allMemories /\ id r = i
          /\ Db.get i (fst after) = Some r'
          /\ sameButRelated r r'
          /\ relatedMemoryIds (aiMetadata r')
             = Some (JS.orNil (relatedMemoryIds (aiMetadata r)) ++ [id newMemory]))
  /\ (forall k, k <> id newMemory -> ~ In k ids ->
        Db.get k (fst after) = Db.get k store).
Proof.
  intros A ids after. subst after. unfold App.linkAndSave. fold ids.
  destruct (linkRelated_get accepts (id newMemory) allMemories ids A store)
    as [Ok G].
  destruct (App.linkRelated accepts (id newMemory) ids allMemories store)
    as [store' ok] eqn:E.
  simpl in Ok, G. subst ok.
  unfold Db.saveMemory. rewrite A. simpl.
  split; [reflexivity|]. split; [|split].
  - exists (App.withRelated newMemory ids).
    rewrite get_put. simpl. rewrite String.eqb_refl.
    repeat split.
  - intros i I.
    destruct (related_ids_in_corpus _ _ _ _ _ I) as [N [r F]].
    pose proof (find_by_id _ _ F) as [Ir Er].
    exists r, (App.updatedRelated (id newMemory) r).
    split; [exact Ir|]. split; [exact Er|]. split; [|split].
    + rewrite get_put. simpl.
      destruct (String.eqb_spec (id newMemory) i); [congruence|].
      rewrite G. rewrite (proj2 (existsb_In i ids) I), F. reflexivity.
    + apply updatedRelated_frame.
    + reflexivity.
  - intros k N NI. rewrite get_put. simpl.
    destruct (String.eqb_spec (id newMemory) k); [congruence|].
    rewrite G.
    destruct (existsb (String.eqb k) ids) eqn:X; [|reflexivity].
    apply existsb_In in X. contradiction.
Qed.

Lemma save_links_both_ways_witness :
  let a := Sample.embedded "a" [] [1; 0]%Q in
  let new := Sample.embedded "new" ["code"] [1; 0]%Q in
  exists r', Db.get "a" (fst (App.linkAndSave Sample.unitSimilarity Sample.allWrites
                                new [a] [a])) = Some r'
             /\ relatedMemoryIds (aiMetadata r') = Some ["new"].
Proof.
  intros a new.
  destruct (save_links_both_ways Sample.unitSimilarity Sample.allWrites new [a] [a]
              (fun _ => eq_refl)) as [_ [_ [L _]]].
  destruct (L "a") as [r [r' [Ir [_ [G [_ R]]]]]]; [now left|].
  exists r'. split; [exact G|].
  destruct Ir as [<-|[]]. exact R.
Defined.

(** X19.  Whatever the store accepts, saving a new memory leaves under
    every key either what was there or the memory of the corpus with that
    id with the new id appended to its links.  When a write was refused, the
    new memory itself is not stored, though memories linked before the
    refusal keep the new id. *)
Theorem refused_save_leaves_links
        (cosineSimilarity : list Q -> list Q -> Q) (accepts : MemoryItem -> bool)
        (newMemory : MemoryItem) (allMemories : list MemoryItem)
        (store : Db.Store) :
  let after := App.linkAndSave cosineSimilarity accepts newMemory allMemories store in
  (forall k, k <> id newMemory ->
     Db.get k (fst after) = Db.get k store
     \/ exists r, In r allMemories /\ id r = k
                  /\ Db.get k (fst after)
                     = Some (App.updatedRelated (id newMemory) r))
  /\ (snd after = false ->
      Db.get (id newMemory) (fst after) = Db.get (id newMemory) store).
Proof.
  intros after. subst after. unfold App.linkAndSave.
  set (ids := Gemini.findRelatedMemories cosineSimilarity newMemory allMemories
                Gemini.defaultThreshold).
  assert (T := linkRelated_touches accepts (id newMemory) allMemories ids store).
  assert (Own : Db.get (id newMemory)
                  (fst (App.linkRelated accepts (id newMemory) ids allMemories store))
                = Db.get (id newMemory) store).
  { destruct (T (id newMemory)) as [E|[I _]]; [exact E|].
    apply related_ids_in_corpus in I. destruct I as [N _]. congruence. }
  assert (Others : forall k,
             Db.get k (fst (App.linkRelated accepts (id newMemory) ids allMemories store))
             = Db.get k store
             \/ exists r, In r allMemories /\ id r = k
                          /\ Db.get k (fst (App.linkRelated accepts (id newMemory)
                                              ids allMemories store))
                             = Some (App.updatedRelated (id newMemory) r)).
  { intros k. destruct (T k) as [E|[_ [r [F G]]]]; [now left|].
    right. exists r. apply find_by_id in F. tauto. }
  destruct (App.linkRelated accepts (id newMemory) ids allMemories store)
    as [store' ok].
  simpl in Own, Others.
  destruct ok; simpl.
  - unfold Db.saveMemory. destruct (accepts _); simpl.
    + split; [|discriminate]. intros k N. rewrite get_put. simpl.
      destruct (String.eqb_spec (id newMemory) k); [congruence|apply Others].
    + split; [intros k _; apply Others|intros _; exact Own].
  - split; [intros k _; apply Others|intros _; exact Own].
Qed.

Lemma refused_save_leaves_links_witness :
  let a := Sample.embedded "a" [] [1; 0]%Q in
  let b := Sample.embedded "b" ["Code"] [0.6; 0.8]%Q in
  let new := Sample.embedded "new" ["code"] [1; 0]%Q in
  let after := App.linkAndSave Sample.unitSimilarity (Sample.refusing "b") new
                 [a; b] [a; b] in
  Db.get "new" (fst after) = None
  /\ Db.get "a" (fst after) = Some (App.withRelated a ["new"]).
Proof.
  intros a b new after.
  destruct (refused_save_leaves_links Sample.unitSimilarity (Sample.refusing "b")
              new [a; b] [a; b]) as [_ R].
  split; [|reflexivity].
  exact (R eq_refl).
Defined.

(** X20.  With the default threshold of 0.65 a shared topic is worth 0.1
    and no more: every memory that is linked has a similarity of 0.65 or
    more, or of 0.55 or more together with a topic shared up to case; when
    every similarity is below 0.55 nothing is linked, whatever the topics;
    and a memory among the first five of the corpus with another id and a
    similarity of 0.65 or more is always linked. *)
Theorem default_threshold_needs_similarity
        (cosineSimilarity : list Q -> list Q -> Q)
        (memory : MemoryItem) (allMemories : list MemoryItem) :
  let similarity other := cosineSimilarity (embedding memory) (embedding other) in
  let ids :=
    Gemini.findRelatedMemories cosineSimilarity memory allMemories
      Gemini.defaultThreshold in
  (forall i, In i ids ->
     exists other,
       In other allMemories /\ id other = i /\ id other <> id memory
       /\ ((0.65 <= similarity other)%Q
           \/ ((0.55 <= similarity other)%Q /\ sharesTopic memory other)))
  /\ ((forall other, In other allMemories -> (similarity other < 0.55)%Q) ->
      ids = [])
  /\ (forall other,
        In other (firstn 5 allMemories) -> id other <> id memory ->
        (0.65 <= similarity other)%Q -> In (id other) ids).
Proof.
  intros similarity ids.
  set (matches := fun other =>
         negb (String.eqb (id other) (id memory))
         && Qle_bool Gemini.defaultThreshold
              (Gemini.finalScore cosineSimilarity memory other)).
  assert (E : ids = firstn 5 (map id (filter matches allMemories))).
  { subst ids. unfold Gemini.findRelatedMemories, JS.slice0.
    now rewrite LinkerSpec.relatedLoop_filter. }
  assert (Boost : forall other,
             (Gemini.finalScore cosineSimilarity memory other
              == similarity other
                 + (if (0 <? Gemini.topicOverlap memory other)%nat then 0.1 else 0))%Q).
  { intros other. unfold Gemini.finalScore. fold (similarity other).
    destruct (0 <? _)%nat; reflexivity. }
  split; [|split].
  - intros i I. rewrite E in I. apply firstn_In in I.
    apply in_map_iff in I. destruct I as [other [<- I]].
    apply filter_In in I. destruct I as [I M].
    apply andb_true_iff in M. destruct M as [N S].
    apply negb_true_iff, String.eqb_neq in N. apply Qle_bool_iff in S.
    rewrite Boost in S. unfold Gemini.defaultThreshold in S.
    exists other. repeat split; auto.
    destruct (0 <? Gemini.topicOverlap memory other)%nat eqn:O.
    + apply LinkerSpec.topicOverlap_positive in O.
      destruct (Qlt_le_dec (similarity other) 0.65) as [Lt|Ge]; [|now left].
      right. split; [lra|exact O].
    + left. lra.
  - intros Low. rewrite E.
    rewrite SearchFacts.filter_none; [reflexivity|].
    intros other I. subst matches. simpl.
    apply andb_false_iff. right.
    destruct (Qle_bool _ _) eqn:S; [|reflexivity].
    apply Qle_bool_iff in S. rewrite Boost in S.
    unfold Gemini.defaultThreshold in S. specialize (Low other I).
    destruct (0 <? _)%nat; lra.
  - intros other I N S. rewrite E.
    rewrite <- (firstn_skipn 5 allMemories), filter_app, map_app, firstn_app.
    apply in_or_app. left.
    rewrite firstn_all2.
    + apply in_map. apply filter_In. split; [exact I|].
      subst matches. simpl. apply andb_true_iff. split.
      * now apply negb_true_iff, String.eqb_neq.
      * apply Qle_bool_iff. rewrite Boost. unfold Gemini.defaultThreshold.
        destruct (0 <? _)%nat; lra.
    + rewrite length_map. etransitivity; [apply filter_length_le|].
      apply firstn_le_length.
Qed.

Lemma default_threshold_needs_similarity_witness :
  Gemini.findRelatedMemories Sample.noSimilarity
    (Sample.embedded "new" ["code"] [1; 0]%Q) Sample.axisCorpus
    Gemini.defaultThreshold = [].
Proof.
  apply (proj1 (proj2 (default_threshold_needs_similarity Sample.noSimilarity
                         (Sample.embedded "new" ["code"] [1; 0]%Q)
                         Sample.axisCorpus))).
  intros other _. reflexivity.
Defined.

End LinkingSpec.

Module ResurfaceMoreSpec.

Import JSFacts StoreFacts ResurfaceFacts.

Lemma saveEach_get accepts us :
  (forall u, accepts u = true) -> NoDup (map id us) ->
  forall s k,
    Db.get k (App.saveEach accepts us s)
    = match find (fun u => String.eqb (id u) k) us with
      | Some u => Some u
      | None => Db.get k s
      end.
Proof.
  intros A. unfold App.saveEach, Db.saveMemory.
  induction us as [|u us IH]; simpl; intros ND s k; [reflexivity|].
  inversion ND as [|? ? Hu Hus]; subst.
  rewrite A, (IH Hus), get_put.
  destruct (String.eqb_spec (id u) k) as [E|N]; [|reflexivity].
  destruct (find (fun u0 => String.eqb (id u0) k) us) as [v|] eqn:F;
    [|reflexivity].
  exfalso. apply find_some in F. destruct F as [I Ev].
  apply String.eqb_eq in Ev. apply Hu. rewrite E, <- Ev. now apply in_map.
Qed.

Lemma NoDup_firstn {A} n (l : list A) : NoDup l -> NoDup (firstn n l).
Proof.
  intros ND. rewrite <- (firstn_skipn n l) in ND.
  now apply NoDup_app_remove_r in ND.
Qed.

Lemma shown_ids now memories :
  NoDup (map id memories) ->
  NoDup (map id (map (fun c => App.resurfaced now (fst c)) (App.chosen now memories))).
Proof.
  intros ND. rewrite map_map. simpl.
  rewrite <- (map_map fst id), chosen_memories, <- firstn_map.
  apply NoDup_firstn.
  apply (Permutation_NoDup
           (Permutation_map id (Permutation_sym (sort_perm _ memories)))).
  exact ND.
Qed.

(** X21.  In a corpus with distinct ids and a store that accepts every
    write, what [handleResurface] displays is what it stores: each
    displayed memory can be read back under its id, with a count that is
    the count of the corpus plus one whatever the store held, and every
    other key holds what it held.  The corpus itself is not reloaded: a
    second resurfacing from the same corpus stores, for the memories it
    picks, the count of the corpus plus one again. *)
Theorem resurfacing_stores_what_it_shows (accepts : MemoryItem -> bool)
        (now now2 : Z) (memories : list MemoryItem) (store : Db.Store) :
  (forall u, accepts u = true) ->
  NoDup (map id memories) ->
  let run := App.handleResurface accepts now memories store in
  let run2 := App.handleResurface accepts now2 memories (App.stored run) in
  (forall shown, App.shown run = Some shown ->
     (forall u, In u shown ->
        Db.get (id u) (App.stored run) = Some u
        /\ exists m, In m memories /\ id m = id u
                     /\ resurfaceCount u = Some (countOr0 (resurfaceCount m) + 1))
     /\ (forall k, ~ In k (map id shown) ->
           Db.get k (App.stored run) = Db.get k store))
  /\ (forall shown2, App.shown run2 = Some shown2 ->
        forall u, In u shown2 ->
          exists m, In m memories /\ id m = id u
                    /\ Db.get (id u) (App.stored run2) = Some u
                    /\ resurfaceCount u = Some (countOr0 (resurfaceCount m) + 1)).
Proof.
  intros A ND.
  assert (Gen : forall t s shown,
             App.shown (App.handleResurface accepts t memories s) = Some shown ->
             (forall u, In u shown ->
                Db.get (id u) (App.stored (App.handleResurface accepts t memories s))
                = Some u
                /\ exists m, In m memories /\ id m = id u
                             /\ resurfaceCount u
                                = Some (countOr0 (resurfaceCount m) + 1))
             /\ (forall k, ~ In k (map id shown) ->
                   Db.get k (App.stored (App.handleResurface accepts t memories s))
                   = Db.get k s)).
  { intros t s shown. unfold App.handleResurface.
    destruct (List.length memories =? 0)%nat; cbn [App.shown App.stored];
      [discriminate|].
    intros E. injection E as <-.
    set (us := map (fun c => App.resurfaced t (fst c)) (App.chosen t memories)).
    assert (NDu : NoDup (map id us)) by now apply shown_ids.
    split.
    - intros u I. split.
      + rewrite (@saveEach_get accepts us A NDu).
        destruct (find (fun u0 => String.eqb (id u0) (id u)) us) as [v|] eqn:F.
        * apply find_some in F. destruct F as [Iv Ev].
          apply String.eqb_eq in Ev. f_equal.
          clear - NDu I Iv Ev. induction us as [|x us IH]; [destruct I|].
          inversion NDu as [|? ? Hx Hus]; subst.
          destruct I as [->|I]; destruct Iv as [->|Iv]; auto.
          -- exfalso. apply Hx. rewrite <- Ev. now apply in_map.
          -- exfalso. apply Hx. rewrite Ev. now apply in_map.
        * exfalso. apply (find_none _ _ F) in I.
          now rewrite String.eqb_refl in I.
      + subst us. apply in_map_iff in I. destruct I as [c [<- Ic]].
        exists (fst c). split; [|split].
        * now apply FrameSpec.chosen_in_corpus in Ic.
        * reflexivity.
        * simpl. now rewrite orZ_default0.
    - intros k NI. rewrite (@saveEach_get accepts us A NDu).
      destruct (find (fun u0 => String.eqb (id u0) k) us) as [v|] eqn:F;
        [|reflexivity].
      exfalso. apply find_some in F. destruct F as [Iv Ev].
      apply String.eqb_eq in Ev. apply NI. rewrite <- Ev. now apply in_map. }
  intros run run2. split.
  - intros shown E. now apply Gen.
  - intros shown2 E u I.
    destruct (Gen now2 (App.stored run) shown2 E) as [G _].
    destruct (G u I) as [Gu [m [Im [Ei C]]]].
    exists m. repeat split; assumption.
Qed.

Lemma resurfacing_stores_what_it_shows_witness :
  let corpus := [Sample.breathing; Sample.packing] in
  let run := App.handleResurface Sample.allWrites 5000 corpus corpus in
  let run2 := App.handleResurface Sample.allWrites 6000 corpus (App.stored run) in
  map (fun u => (id u, resurfaceCount u)) (App.stored run2)
  = [("m1", Some 1); ("m2", Some 1)]
  /\ forall shown2, App.shown run2 = Some shown2 ->
       forall u, In u shown2 -> Db.get (id u) (App.stored run2) = Some u.
Proof.
  intros corpus run run2. split; [reflexivity|].
  assert (ND : NoDup (map id corpus)).
  { simpl. repeat constructor; simpl; intuition discriminate. }
  destruct (@resurfacing_stores_what_it_shows Sample.allWrites 5000 6000 corpus
              corpus (fun _ => eq_refl) ND) as [_ R].
  intros shown2 E u I.
  destruct (R shown2 E u I) as [m [_ [_ [G _]]]]. exact G.
Defined.



End ResurfaceMoreSpec.
